(** * rpctest/votingwallet.go: the simulated voting wallet

    A shallow embedding of the voting wallet of the rpctest harness and
    the properties of its ticket-purchase handler, its vote handler, its
    vote limit and its block-generation driver.

    Go [int] and [int64] values are integers with the 64-bit two's
    complement wrap-around written out; [uint16] and [uint32] network
    parameters are naturals; slices are lists; Go maps are [gmap]s.
    Methods with a pointer receiver take the wallet and return it. *)

From Stdlib Require Import ZArith Lia.
From stdpp Require Import gmap list strings pretty.

Local Open Scope Z_scope.

(** ** Machine integers *)

Definition wrap64 (z : Z) : Z := (z + 2 ^ 63) mod 2 ^ 64 - 2 ^ 63.
Definition add64 (a b : Z) : Z := wrap64 (a + b).
Definition sub64 (a b : Z) : Z := wrap64 (a - b).
Definition mul64 (a b : Z) : Z := wrap64 (a * b).
(** Go's [/] on integers truncates toward zero. *)
Definition div64 (a b : Z) : Z := wrap64 (Z.quot a b).
Definition inInt64 (z : Z) : Prop := - 2 ^ 63 <= z < 2 ^ 63.
(** The conversion [uint32(x)] of an [int64]. *)
Definition toUint32 (z : Z) : Z := z mod 2 ^ 32.

(** ** Data of the [wire] and [chaincfg] packages used by the wallet *)

Abbreviation byte := Z (only parsing).
Abbreviation Script := (list Z) (only parsing).
(** [chainhash.Hash], a [[32]byte], as the list of its bytes. *)
Abbreviation Hash := (list Z) (only parsing).
Abbreviation Err := string (only parsing).

Record OutPoint := mkOutPoint {
  opHash : Hash;
  opIndex : Z;
  opTree : Z
}.

Record TxIn := mkTxIn {
  PreviousOutPoint : OutPoint;
  ValueIn : Z;
  SignatureScript : Script
}.

Record TxOut := mkTxOut {
  Value : Z;
  Version : Z;
  PkScript : Script
}.

Record MsgTx := mkMsgTx {
  txVersion : Z;
  txIn : list TxIn;
  txOut : list TxOut
}.

Record BlockHeader := mkBlockHeader {
  Height : N;
  SBits : Z
}.

Record TreasuryVoteTuple := mkTreasuryVoteTuple {
  tvHash : Hash;
  tvVote : Z
}.

(** The fields of [chaincfg.Params] the wallet reads. [TicketMaturity],
    [CoinbaseMaturity] and [TicketsPerBlock] are [uint16]. *)
Record Params := mkParams {
  StakeValidationHeight : Z;
  TicketMaturity : N;
  CoinbaseMaturity : N;
  TicketsPerBlock : N;
  MinimumStakeDiff : Z;
  StakeBaseSigScript : Script
}.

Module wire.
Definition TxVersion : Z := 1.
Definition TxVersionTreasury : Z := 3.
Definition TxTreeRegular : Z := 0.
Definition TxTreeStake : Z := 1.
Definition NullValueIn : Z := -1.
Definition DefaultPkScriptVersion : Z := 0.
Definition MaxUint32 : Z := 2 ^ 32 - 1.

Definition NewTxIn (prevOut : OutPoint) (valueIn : Z) (sig : Script) : TxIn :=
  {| PreviousOutPoint := prevOut; ValueIn := valueIn; SignatureScript := sig |}.

Definition NewTxOut (value : Z) (pkScript : Script) : TxOut :=
  {| Value := value; Version := DefaultPkScriptVersion; PkScript := pkScript |}.

Definition NewOutPoint (h : Hash) (index tree : Z) : OutPoint :=
  {| opHash := h; opIndex := index; opTree := tree |}.

Definition emptyTx : MsgTx := {| txVersion := 0; txIn := []; txOut := [] |}.
End wire.

(** ** Package-level values *)

(** The 24 bytes [bd a9 14], twenty times [00], [87]. *)
Definition nullPay2SSTXChange : Script :=
  [0xbd; 0xa9; 0x14] ++ replicate 20 0x00 ++ [0x87].

Definition stakebaseOutPoint : OutPoint :=
  {| opHash := replicate 32 0; opIndex := wire.MaxUint32; opTree := 0 |}.

Definition commitAmountMultiplier : Z := 4.

Record blockConnectedNtfn := mkBlockConnectedNtfn {
  blockHeader : list byte;
  transactions : list (list byte)
}.

Record winningTicketsNtfn := mkWinningTicketsNtfn {
  blockHash : Hash;
  blockHeight : Z;
  winningTickets : list Hash
}.

Record ticketInfo := mkTicketInfo {
  ticketPrice : Z
}.

Record utxoInfo := mkUtxoInfo {
  outpoint : OutPoint;
  amount : Z
}.

Definition newTxOut (amount : Z) (pkScriptVer : Z) (pkScript : Script) : TxOut :=
  {| Value := amount; Version := pkScriptVer; PkScript := pkScript |}.

Definition ticketPurchaseStartHeight (net : Params) : Z :=
  sub64 (sub64 (StakeValidationHeight net) (Z.of_N (TicketMaturity net))) 2.

(** The sum is computed on [uint16] values. *)
Definition requiredTicketCount (net : Params) : Z :=
  (Z.of_N (CoinbaseMaturity net + TicketMaturity net + 2) mod 2 ^ 16
   * Z.of_N (TicketsPerBlock net)) mod 2 ^ 16.

(** ** Services the wallet calls *)

(** The pure functions of the [wire], [txscript], [sign], [stake] and
    [standalone] packages the handlers call. *)
Record Lib := mkLib {
  (** [header.FromBytes] *)
  FromBytes : list byte -> Err + BlockHeader;
  (** [sign.SignatureScript(tx, idx, prevScript, SigHashAll, key, ...)] *)
  SignatureScript_ : MsgTx -> nat -> Script -> list byte -> Err + Script;
  (** [txscript.GenerateSSGenBlockRef(hash, height)] *)
  GenerateSSGenBlockRef : Hash -> Z -> Err + Script;
  (** [subsidyCache.CalcStakeVoteSubsidyV2(height, isSubsidySplitEnabled)] *)
  CalcStakeVoteSubsidyV2 : Z -> bool -> Z;
  (** [stake.CheckSSGen] *)
  CheckSSGen : MsgTx -> option Err;
  (** A script builder given [OP_RETURN] and one data push, then [Script()]. *)
  OpReturnScript : list byte -> Err + Script
}.

(** The result a [FutureSendRawTransactionResult] delivers on [Receive]. *)
Abbreviation Promise := (Err + Hash)%type (only parsing).

Inductive MempoolTxType := GRMTickets | GRMVotes.

(** Which case of the driver's [select] is taken. *)
Inductive Fired := TimeoutFired | CtxDone | TestTimeoutFired.

(** The RPC client and the clock, over the state [Node] of the world
    outside the wallet. *)
Record Client (Node : Type) := mkClient {
  GetBestBlock : Node -> Node * (Err + (Hash * Z));
  Generate : Node -> Z -> Node * (Err + list Hash);
  (** The error of [GetRawMempool] is dropped by its callers. *)
  GetRawMempool : Node -> MempoolTxType -> Node * list Hash;
  SendRawTransactionAsync : Node -> MsgTx -> Node * Promise;
  selectCase : Node -> Node * Fired
}.
Arguments GetBestBlock {Node}.
Arguments Generate {Node}.
Arguments GetRawMempool {Node}.
Arguments SendRawTransactionAsync {Node}.
Arguments selectCase {Node}.

(** The loops of the driver end by running out of [fuel] (the wait never
    ends), by a run-time panic, or with a value. *)
Inductive Run (A : Type) :=
  | OutOfFuel
  | Crashed (msg : string)
  | Finished (a : A).
Arguments OutOfFuel {A}.
Arguments Crashed {A}.
Arguments Finished {A}.

Section Wallet.

Context {Node : Type}.
Variable lib : Lib.
Variable c : Client Node.

(** ** The wallet *)

(** [VotingWallet]: [ActiveNet] is [w.hn.ActiveNet]; the client, the
    subsidy cache and the notification channels are the section's
    services. Errors given to [w.logError] are collected in [logged]. *)
Record VotingWallet := mkVotingWallet {
  ActiveNet : Params;
  privateKey : list byte;
  p2sstxVer : Z;
  p2sstx : Script;
  commitScriptVer : Z;
  commitScript : Script;
  p2pkh : Script;
  p2pkhVer : Z;
  voteScriptVer : Z;
  voteScript : Script;
  voteRetScriptVer : Z;
  voteRetScript : Script;
  miner : option (Node -> Z -> Node * (Err + list Hash));
  utxos : list utxoInfo;
  tickets : gmap (list Z) ticketInfo;
  maturingVotes : gmap Z (list utxoInfo);
  tspendVotes : list TreasuryVoteTuple;
  limitNbVotes : Z
}.

Definition set_utxos (w : VotingWallet) (v : list utxoInfo) : VotingWallet :=
  mkVotingWallet (ActiveNet w) (privateKey w) (p2sstxVer w) (p2sstx w)
    (commitScriptVer w) (commitScript w) (p2pkh w) (p2pkhVer w)
    (voteScriptVer w) (voteScript w) (voteRetScriptVer w) (voteRetScript w)
    (miner w) v (tickets w) (maturingVotes w) (tspendVotes w) (limitNbVotes w).

Definition set_tickets (w : VotingWallet) (v : gmap (list Z) ticketInfo) : VotingWallet :=
  mkVotingWallet (ActiveNet w) (privateKey w) (p2sstxVer w) (p2sstx w)
    (commitScriptVer w) (commitScript w) (p2pkh w) (p2pkhVer w)
    (voteScriptVer w) (voteScript w) (voteRetScriptVer w) (voteRetScript w)
    (miner w) (utxos w) v (maturingVotes w) (tspendVotes w) (limitNbVotes w).

Definition set_maturingVotes (w : VotingWallet) (v : gmap Z (list utxoInfo)) : VotingWallet :=
  mkVotingWallet (ActiveNet w) (privateKey w) (p2sstxVer w) (p2sstx w)
    (commitScriptVer w) (commitScript w) (p2pkh w) (p2pkhVer w)
    (voteScriptVer w) (voteScript w) (voteRetScriptVer w) (voteRetScript w)
    (miner w) (utxos w) (tickets w) v (tspendVotes w) (limitNbVotes w).

Definition set_tspendVotes (w : VotingWallet) (v : list TreasuryVoteTuple) : VotingWallet :=
  mkVotingWallet (ActiveNet w) (privateKey w) (p2sstxVer w) (p2sstx w)
    (commitScriptVer w) (commitScript w) (p2pkh w) (p2pkhVer w)
    (voteScriptVer w) (voteScript w) (voteRetScriptVer w) (voteRetScript w)
    (miner w) (utxos w) (tickets w) (maturingVotes w) v (limitNbVotes w).

Definition set_limitNbVotes (w : VotingWallet) (v : Z) : VotingWallet :=
  mkVotingWallet (ActiveNet w) (privateKey w) (p2sstxVer w) (p2sstx w)
    (commitScriptVer w) (commitScript w) (p2pkh w) (p2pkhVer w)
    (voteScriptVer w) (voteScript w) (voteRetScriptVer w) (voteRetScript w)
    (miner w) (utxos w) (tickets w) (maturingVotes w) (tspendVotes w) v.

Definition set_miner (w : VotingWallet)
    (f : Node -> Z -> Node * (Err + list Hash)) : VotingWallet :=
  mkVotingWallet (ActiveNet w) (privateKey w) (p2sstxVer w) (p2sstx w)
    (commitScriptVer w) (commitScript w) (p2pkh w) (p2pkhVer w)
    (voteScriptVer w) (voteScript w) (voteRetScriptVer w) (voteRetScript w)
    (Some f) (utxos w) (tickets w) (maturingVotes w) (tspendVotes w) (limitNbVotes w).

(** ** Setters *)

Definition SetMiner (w : VotingWallet)
    (f : Node -> Z -> Node * (Err + list Hash)) : VotingWallet :=
  set_miner w f.

Definition VoteForTSpends (w : VotingWallet) (votes : list TreasuryVoteTuple)
    : VotingWallet :=
  set_tspendVotes w votes.

Definition LimitNbVotes (w : VotingWallet) (newLimit : Z) : VotingWallet * option Err :=
  if newLimit <? 0 then (w, Some "cannot use negative number of votes")
  else if newLimit >? limitNbVotes w then (w, Some "cannot increase number of votes")
  else (set_limitNbVotes w newLimit, None).

(** ** What a handler leaves behind *)

(** The wallet and the node after the handler, the errors it gave to
    [logError], and the transactions it submitted with their results. *)
Record Done := mkDone {
  wallet : VotingWallet;
  node : Node;
  logged : list Err;
  sent : list (MsgTx * Promise)
}.

Inductive Outcome :=
  | Panic (msg : string)
  | Returned (d : Done).

Definition quiet (w : VotingWallet) (nd : Node) : Done :=
  {| wallet := w; node := nd; logged := []; sent := [] |}.

Definition failed (w : VotingWallet) (nd : Node) (err : Err) : Done :=
  {| wallet := w; node := nd; logged := [err]; sent := [] |}.

(** Submits every transaction before any result is awaited. *)
Fixpoint sendAll (nd : Node) (txs : list MsgTx) : Node * list Promise :=
  match txs with
  | [] => (nd, [])
  | t :: ts =>
      let '(nd1, p) := SendRawTransactionAsync c nd t in
      let '(nd2, ps) := sendAll nd1 ts in
      (nd2, p :: ps)
  end.

Definition setSignatureScript (t : MsgTx) (i : nat) (sig : Script) : MsgTx :=
  {| txVersion := txVersion t;
     txIn := match txIn t !! i with
             | Some inp => <[ i := wire.NewTxIn (PreviousOutPoint inp) (ValueIn inp) sig ]> (txIn t)
             | None => txIn t
             end;
     txOut := txOut t |}.

(** ** The ticket purchase handler *)

Definition ticketTx (w : VotingWallet) (u : utxoInfo) (ticketPrice commitAmount : Z)
    : MsgTx :=
  let changeAmount := sub64 (amount u) commitAmount in
  {| txVersion := wire.TxVersion;
     txIn := [wire.NewTxIn (outpoint u) wire.NullValueIn []];
     txOut := [newTxOut ticketPrice (p2sstxVer w) (p2sstx w);
               newTxOut 0 (commitScriptVer w) (commitScript w);
               wire.NewTxOut changeAmount nullPay2SSTXChange] |}.

(** The loop that builds and signs one ticket per selected utxo. *)
Fixpoint buildTickets (w : VotingWallet) (us : list utxoInfo)
    (ticketPrice commitAmount : Z) : Err + list MsgTx :=
  match us with
  | [] => inr []
  | u :: rest =>
      let t := ticketTx w u ticketPrice commitAmount in
      let prevScript :=
        if opTree (outpoint u) =? wire.TxTreeStake then voteRetScript w else p2pkh w in
      match SignatureScript_ lib t 0%nat prevScript (privateKey w) with
      | inl err => inl ("failed to sign ticket tx: " +:+ err)
      | inr sig =>
          match buildTickets w rest ticketPrice commitAmount with
          | inl e => inl e
          | inr ts => inr (setSignatureScript t 0 sig :: ts)
          end
      end
  end.

(** The loop that awaits the submissions and records the tickets. *)
Fixpoint recordTickets (tks : gmap (list Z) ticketInfo) (promises : list Promise)
    (price : Z) : gmap (list Z) ticketInfo * option Err :=
  match promises with
  | [] => (tks, None)
  | p :: ps =>
      match p with
      | inl err => (tks, Some ("unable to send ticket tx: " +:+ err))
      | inr h => recordTickets (<[ h := {| ticketPrice := price |} ]> tks) ps price
      end
  end.

(** The last step of the handler: the votes maturing at this height, if
    any, become available for spending. *)
Definition releaseMatured (w : VotingWallet) (blockHeight : Z) : VotingWallet :=
  match maturingVotes w !! blockHeight with
  | Some mv =>
      set_maturingVotes (set_utxos w (utxos w ++ mv))
        (delete blockHeight (maturingVotes w))
  | None => w
  end.

Definition handleBlockConnectedNtfn (w : VotingWallet) (nd : Node)
    (ntfn : blockConnectedNtfn) : Done :=
  match FromBytes lib (blockHeader ntfn) with
  | inl err => failed w nd err
  | inr header =>
      let blockHeight := Z.of_N (Height header) in
      let purchaseHeight := ticketPurchaseStartHeight (ActiveNet w) in
      if blockHeight <? purchaseHeight then quiet w nd
      else
        let nbTickets := Z.of_N (TicketsPerBlock (ActiveNet w)) in
        if Z.of_nat (length (utxos w)) <? nbTickets then
          failed w nd ("number of available utxos (" +:+ pretty (Z.of_nat (length (utxos w)))
                       +:+ ") less than number of tickets to purchase ("
                       +:+ pretty nbTickets +:+ ")")
        else
          let ticketPrice := add64 (SBits header) (div64 (SBits header) 6) in
          let commitAmount :=
            mul64 (MinimumStakeDiff (ActiveNet w)) commitAmountMultiplier in
          let keep := (length (utxos w) - Z.to_nat nbTickets)%nat in
          let selected := drop keep (utxos w) in
          let w1 := set_utxos w (take keep (utxos w)) in
          match buildTickets w1 selected ticketPrice commitAmount with
          | inl err => failed w1 nd err
          | inr txs =>
              let '(nd1, promises) := sendAll nd txs in
              match recordTickets (tickets w1) promises ticketPrice with
              | (tks, Some err) =>
                  {| wallet := set_tickets w1 tks; node := nd1;
                     logged := [err]; sent := zip txs promises |}
              | (tks, None) =>
                  {| wallet := releaseMatured (set_tickets w1 tks) blockHeight;
                     node := nd1; logged := []; sent := zip txs promises |}
              end
          end
  end.


(** ** The vote handler *)

(** The data of the treasury-vote output: ['T'], ['V'], then the hash and
    the vote byte of every tspend. *)
Definition opReturnData (tvs : list TreasuryVoteTuple) : list byte :=
  [84; 86] ++ flat_map (fun v => tvHash v ++ [tvVote v mod 256]) tvs.

(** The vote as it stands before the optional treasury output. *)
Definition voteTx (w : VotingWallet) (wt : Hash) (stakebaseValue voteRetValue : Z)
    (blockRefScript : Script) : MsgTx :=
  {| txVersion := wire.TxVersion;
     txIn := [wire.NewTxIn stakebaseOutPoint stakebaseValue
                (StakeBaseSigScript (ActiveNet w));
              wire.NewTxIn (wire.NewOutPoint wt 0 wire.TxTreeStake)
                wire.NullValueIn []];
     txOut := [wire.NewTxOut 0 blockRefScript;
               newTxOut 0 (voteScriptVer w) (voteScript w);
               newTxOut voteRetValue (voteRetScriptVer w) (voteRetScript w)] |}.

Definition addTreasuryOutput (vote : MsgTx) (script : Script) : MsgTx :=
  {| txVersion := wire.TxVersionTreasury;
     txIn := txIn vote;
     txOut := txOut vote ++ [wire.NewTxOut 0 script] |}.

(** How the loop over the winning tickets ends: an access out of the
    bounds of [votes], an early [return] after [logError], or the array
    and the number of votes written into it. *)
Inductive Built :=
  | BuiltPanic (index len : nat)
  | BuiltError (err : Err)
  | BuiltVotes (votes : list MsgTx) (nbVotes : nat).

(** The body of the loop for one owned winning ticket, after [vote :=
    &votes[nbVotes]]: the signed vote, or the error that is logged. *)
Definition buildVote (w : VotingWallet) (wt : Hash) (ticket : ticketInfo)
    (stakebaseValue : Z) (blockRefScript : Script) : Err + MsgTx :=
  let voteRetValue := add64 (ticketPrice ticket) stakebaseValue in
  let vote := voteTx w wt stakebaseValue voteRetValue blockRefScript in
  let withTreasury :=
    if 0 <? Z.of_nat (length (tspendVotes w)) then
      match OpReturnScript lib (opReturnData (tspendVotes w)) with
      | inl err => inl ("unable to construct vote script: " +:+ err)
      | inr script => inr (addTreasuryOutput vote script)
      end
    else inr vote in
  match withTreasury with
  | inl err => inl err
  | inr vote =>
      match SignatureScript_ lib vote 1%nat (p2sstx w) (privateKey w) with
      | inl err => inl ("failed to sign ticket tx: " +:+ err)
      | inr sig =>
          let vote := setSignatureScript vote 1 sig in
          match CheckSSGen lib vote with
          | Some err => inl ("transaction is not a valid vote: " +:+ err)
          | None => inr vote
          end
      end
  end.

Fixpoint createVotes (w : VotingWallet) (stakebaseValue : Z) (blockRefScript : Script)
    (wts : list Hash) (votes : list MsgTx) (nbVotes : nat) : Built :=
  match wts with
  | [] => BuiltVotes votes nbVotes
  | wt :: rest =>
      match tickets w !! wt with
      | None => createVotes w stakebaseValue blockRefScript rest votes nbVotes
      | Some ticket =>
          match votes !! nbVotes with
          | None => BuiltPanic nbVotes (length votes)
          | Some _ =>
              match buildVote w wt ticket stakebaseValue blockRefScript with
              | inl err => BuiltError err
              | inr vote =>
                  let votes := <[ nbVotes := vote ]> votes in
                  let nbVotes := S nbVotes in
                  if Z.of_nat nbVotes >=? limitNbVotes w then BuiltVotes votes nbVotes
                  else createVotes w stakebaseValue blockRefScript rest votes nbVotes
              end
          end
      end
  end.

(** How the loop over the promises ends. *)
Inductive Collected :=
  | CollectPanic (msg : string)
  | CollectError (err : Err)
  | CollectUtxos (newUtxos : list utxoInfo).

Fixpoint collectPayouts (promises : list Promise) (votes : list MsgTx) : Collected :=
  match promises with
  | [] => CollectUtxos []
  | p :: ps =>
      match p with
      | inl err => CollectError ("unable to send vote tx: " +:+ err)
      | inr h =>
          match votes with
          | [] => CollectPanic "index out of range"
          | v :: vs =>
              match txOut v !! 2%nat with
              | None => CollectPanic "index out of range"
              | Some out =>
                  match collectPayouts ps vs with
                  | CollectUtxos us =>
                      CollectUtxos
                        ({| outpoint := {| opHash := h; opIndex := 2;
                                           opTree := wire.TxTreeStake |};
                            amount := Value out |} :: us)
                  | other => other
                  end
              end
          end
      end
  end.

Definition handleWinningTicketsNtfn (w : VotingWallet) (nd : Node)
    (ntfn : winningTicketsNtfn) : Outcome :=
  match GenerateSSGenBlockRef lib (blockHash ntfn) (toUint32 (blockHeight ntfn)) with
  | inl err => Returned (failed w nd ("unable to generate ssgen block ref: " +:+ err))
  | inr blockRefScript =>
      let stakebaseValue := CalcStakeVoteSubsidyV2 lib (blockHeight ntfn) true in
      if limitNbVotes w <? 0 then Panic "makeslice: len out of range"
      else
        let votes := replicate (Z.to_nat (limitNbVotes w)) wire.emptyTx in
        match createVotes w stakebaseValue blockRefScript (winningTickets ntfn) votes 0 with
        | BuiltPanic i n =>
            Panic ("index out of range [" +:+ pretty i +:+ "] with length " +:+ pretty n)
        | BuiltError err => Returned (failed w nd err)
        | BuiltVotes votes nbVotes =>
            let batch := take nbVotes votes in
            let '(nd1, promises) := sendAll nd batch in
            match collectPayouts promises batch with
            | CollectPanic msg => Panic msg
            | CollectError err =>
                Returned {| wallet := w; node := nd1; logged := [err];
                            sent := zip batch promises |}
            | CollectUtxos newUtxos =>
                let maturingHeight :=
                  add64 (blockHeight ntfn) (Z.of_N (CoinbaseMaturity (ActiveNet w))) in
                Returned {| wallet := set_maturingVotes w
                                        (<[ maturingHeight := newUtxos ]> (maturingVotes w));
                            node := nd1; logged := [];
                            sent := zip batch promises |}
            end
        end
  end.

(** ** The block-generation driver *)

Definition notGotList (nbVotes nbTickets : Z) (mempoolTickets mempoolVotes : list Hash)
    : list string :=
  (if bool_decide (Z.of_nat (length mempoolVotes) ≠ nbVotes) then ["votes"] else [])
  ++ (if bool_decide (Z.of_nat (length mempoolTickets) ≠ nbTickets) then ["tickets"] else []).

Definition timeoutError (notGot : list string) (genHeight : Z) : Err :=
  "timeout waiting for " +:+ String.concat "," notGot
  +:+ " at height " +:+ pretty genHeight.

(** The loop [for !gotAllReqs]: one [select] per unit of fuel. It yields
    the error the driver returns, or [None] once all requirements are met. *)
Fixpoint waitForMempool (fuel : nat) (nd : Node) (nbVotes nbTickets : Z)
    (needsVotes needsTickets : bool) (genHeight : Z) : Run (Node * option Err) :=
  match fuel with
  | O => OutOfFuel
  | S fuel =>
      let '(nd0, fired) := selectCase c nd in
      match fired with
      | TimeoutFired =>
          let '(nd1, mempoolTickets) := GetRawMempool c nd0 GRMTickets in
          let '(nd2, mempoolVotes) := GetRawMempool c nd1 GRMVotes in
          Finished (nd2, Some (timeoutError
                     (notGotList nbVotes nbTickets mempoolTickets mempoolVotes)
                     genHeight))
      | CtxDone => Finished (nd0, Some "wallet is stopping")
      | TestTimeoutFired =>
          let '(nd1, mempoolTickets) := GetRawMempool c nd0 GRMTickets in
          let '(nd2, mempoolVotes) := GetRawMempool c nd1 GRMVotes in
          let gotAllReqs :=
            (negb needsTickets || (Z.of_nat (length mempoolTickets) >=? nbVotes))
            && (negb needsVotes || (Z.of_nat (length mempoolVotes) >=? nbVotes)) in
          if gotAllReqs then Finished (nd2, None)
          else waitForMempool fuel nd2 nbVotes nbTickets needsVotes needsTickets genHeight
      end
  end.

(** The loop over the blocks: [i] is the loop counter, [todo] the number
    of iterations left, [hashes] the identifiers stored so far. *)
Fixpoint generateLoop (fuel : nat) (w : VotingWallet)
    (mine : Node -> Z -> Node * (Err + list Hash))
    (startHeight nbVotes nbTickets : Z) (i : Z) (todo : nat)
    (nd : Node) (hashes : list Hash)
    : Run (VotingWallet * Node * (Err + list Hash)) :=
  match todo with
  | O => Finished (w, nd, inr hashes)
  | S todo =>
      let genHeight := add64 (add64 startHeight i) 1 in
      let '(nd1, mined) := mine nd 1 in
      match mined with
      | inl err =>
          Finished (w, nd1, inl ("unable to generate block at height "
                                 +:+ pretty genHeight +:+ ": " +:+ err))
      | inr h =>
          match h !! 0%nat with
          | None => Crashed "index out of range [0] with length 0"
          | Some h0 =>
              let needsVotes :=
                genHeight >=? sub64 (StakeValidationHeight (ActiveNet w)) 1 in
              let needsTickets :=
                genHeight >=? ticketPurchaseStartHeight (ActiveNet w) in
              let gotAllReqs := negb needsVotes && negb needsTickets in
              let waited :=
                if gotAllReqs then Finished (nd1, None)
                else waitForMempool fuel nd1 nbVotes nbTickets
                       needsVotes needsTickets genHeight in
              match waited with
              | OutOfFuel => OutOfFuel
              | Crashed msg => Crashed msg
              | Finished (nd2, Some err) => Finished (w, nd2, inl err)
              | Finished (nd2, None) =>
                  generateLoop fuel w mine startHeight nbVotes nbTickets
                    (i + 1) todo nd2 (hashes ++ [h0])
              end
          end
      end
  end.

(** [GenerateBlocks(ctx, nb)], with at most [fuel] turns of the wait
    loop for each block. *)
Definition GenerateBlocks (fuel : nat) (w : VotingWallet) (nd : Node) (nb : N)
    : Run (VotingWallet * Node * (Err + list Hash)) :=
  let '(nd0, best) := GetBestBlock c nd in
  match best with
  | inl err => Finished (w, nd0, inl err)
  | inr (_, startHeight) =>
      let nbVotes := limitNbVotes w in
      let nbTickets := Z.of_N (TicketsPerBlock (ActiveNet w)) in
      let mine := match miner w with
                  | Some f => f
                  | None => Generate c
                  end in
      generateLoop fuel w mine startHeight nbVotes nbTickets 0 (N.to_nat nb) nd0 []
  end.

(** ** The event loop *)

(** What reaches the wallet: the two notifications taken from the
    channels by [handleNotifications], and the calls of its setters. *)
Inductive Event :=
  | EvBlockConnected (ntfn : blockConnectedNtfn)
  | EvWinningTickets (ntfn : winningTicketsNtfn)
  | EvLimitNbVotes (newLimit : Z)
  | EvVoteForTSpends (votes : list TreasuryVoteTuple).

Definition step (w : VotingWallet) (nd : Node) (ev : Event) : Outcome :=
  match ev with
  | EvBlockConnected ntfn => Returned (handleBlockConnectedNtfn w nd ntfn)
  | EvWinningTickets ntfn => handleWinningTicketsNtfn w nd ntfn
  | EvLimitNbVotes n =>
      let '(w1, err) := LimitNbVotes w n in
      Returned {| wallet := w1; node := nd; logged := option_list err; sent := [] |}
  | EvVoteForTSpends vs => Returned (quiet (VoteForTSpends w vs) nd)
  end.

(** The events handled one at a time; a panic ends the run. The result
    is each handled event with what it left behind, oldest first. *)
Fixpoint run (w : VotingWallet) (nd : Node) (evs : list Event) : list (Event * Done) :=
  match evs with
  | [] => []
  | ev :: rest =>
      match step w nd ev with
      | Panic _ => []
      | Returned d => (ev, d) :: run (wallet d) (node d) rest
      end
  end.

(** The wallet after the events of [evs] that were handled. *)
Fixpoint walletAfter (w : VotingWallet) (nd : Node) (evs : list Event) : VotingWallet :=
  match evs with
  | [] => w
  | ev :: rest =>
      match step w nd ev with
      | Panic _ => w
      | Returned d => walletAfter (wallet d) (node d) rest
      end
  end.

(** The ticket purchases submitted while [evs] were handled, with their
    results. *)
Definition purchaseLog (w : VotingWallet) (nd : Node) (evs : list Event)
    : list (MsgTx * Promise) :=
  flat_map (fun p => match p.1 with
                     | EvBlockConnected _ => sent p.2
                     | _ => []
                     end) (run w nd evs).

End Wallet.

Arguments Panic {Node}.
Arguments VotingWallet Node : clear implicits.
Arguments Done Node : clear implicits.
Arguments Outcome Node : clear implicits.

(** ** Quantities the properties speak about *)

Section Quantities.

Context {Node : Type}.

Definition sumAmounts (us : list utxoInfo) : Z :=
  foldr (fun u acc => amount u + acc) 0 us.

Definition lockedSum (tks : gmap (list Z) ticketInfo) : Z :=
  map_fold (fun _ t acc => ticketPrice t + acc) 0 tks.

Definition scheduledSum (mv : gmap Z (list utxoInfo)) : Z :=
  map_fold (fun _ us acc => sumAmounts us + acc) 0 mv.

Definition lockedInTickets (w : VotingWallet Node) : Z := lockedSum (tickets w).

Definition scheduledPayouts (w : VotingWallet Node) : Z :=
  scheduledSum (maturingVotes w).

(** Unlocked funds, funds locked in the recorded tickets, and funds
    scheduled in maturing payouts. *)
Definition totalFunds (w : VotingWallet Node) : Z :=
  sumAmounts (utxos w) + lockedInTickets w + scheduledPayouts w.

(** The fee of a transaction: the value it spends less the value of its
    outputs. *)
Definition txFee (spent : Z) (tx : MsgTx) : Z :=
  spent - foldr (fun o acc => Value o + acc) 0 (txOut tx).

(** The winning tickets the wallet owns, in the order of the draw. *)
Definition owned (w : VotingWallet Node) (wts : list Hash)
    : list (Hash * ticketInfo) :=
  omap (fun wt => pair wt <$> tickets w !! wt) wts.

(** The owned winners the vote limit lets through. *)
Definition voters (w : VotingWallet Node) (wts : list Hash)
    : list (Hash * ticketInfo) :=
  take (Z.to_nat (limitNbVotes w)) (owned w wts).

(** The fund a vote accepted under [h] pays out: output 2 of the vote,
    worth the ticket's price plus the subsidy. *)
Definition payout (stakebaseValue : Z) (h : Hash) (voter : Hash * ticketInfo) : utxoInfo :=
  {| outpoint := {| opHash := h; opIndex := 2; opTree := wire.TxTreeStake |};
     amount := add64 (ticketPrice voter.2) stakebaseValue |}.



(** The height at which the payouts of a draw mature. *)
Definition maturingHeightOf (w : VotingWallet Node) (ntfn : winningTicketsNtfn) : Z :=
  add64 (blockHeight ntfn) (Z.of_N (CoinbaseMaturity (ActiveNet w))).

(** The tickets recorded for the accepted submissions [hs]. *)
Definition insertTickets (tks : gmap (list Z) ticketInfo) (hs : list Hash) (price : Z)
    : gmap (list Z) ticketInfo :=
  foldl (fun m h => <[ h := {| ticketPrice := price |} ]> m) tks hs.

(** The submissions of a handled event that the node accepted. *)
Definition isAccepted (p : Promise) : bool :=
  match p with inr _ => true | inl _ => false end.

Definition acceptedCount (log : list (MsgTx * Promise)) : nat :=
  length (filter (fun p => isAccepted (snd p) = true) log).

End Quantities.

(** ** The specification's sentences that the handlers do not satisfy

    Each is written as the specification words it; the handlers are
    compared with them at concrete inputs below. *)

Section Stated.

Context {Node : Type}.
Variable lib : Lib.
Variable c : Client Node.

(** "For every vote successfully cast at draw height H, a maturing-payout
    entry appears keyed at height H + coinbase-maturity", one fund per
    accepted vote. *)
Definition castVotesScheduled (w : VotingWallet Node) (nd : Node)
    (ntfn : winningTicketsNtfn) : Prop :=
  forall d,
    handleWinningTicketsNtfn lib c w nd ntfn = Returned d ->
    (0 < acceptedCount (sent d))%nat ->
    exists funds,
      maturingVotes (wallet d) !! maturingHeightOf w ntfn = Some funds
      /\ length funds = acceptedCount (sent d).

(** "That entry is removed from the schedule ... exactly when a
    block-connected event for [that height] is processed". *)
Definition releasedAtItsHeight (w : VotingWallet Node) (nd : Node)
    (ntfn : blockConnectedNtfn) : Prop :=
  forall header funds,
    FromBytes lib (blockHeader ntfn) = inr header ->
    maturingVotes w !! Z.of_N (Height header) = Some funds ->
    maturingVotes (wallet (handleBlockConnectedNtfn lib c w nd ntfn))
      !! Z.of_N (Height header) = None.





(** "After the purchase handler runs at a height >= purchase-start-height
    with >= k available funds, exactly k new tickets are recorded". *)
Definition purchaseRecordsAll (w : VotingWallet Node) (nd : Node)
    (ntfn : blockConnectedNtfn) : Prop :=
  forall header,
    FromBytes lib (blockHeader ntfn) = inr header ->
    ticketPurchaseStartHeight (ActiveNet w) <= Z.of_N (Height header) ->
    Z.of_N (TicketsPerBlock (ActiveNet w)) <= Z.of_nat (length (utxos w)) ->
    size (tickets (wallet (handleBlockConnectedNtfn lib c w nd ntfn)))
    = (size (tickets w) + N.to_nat (TicketsPerBlock (ActiveNet w)))%nat.

End Stated.

(** ** A scripted node and a small network, for concrete runs *)

Module Fixture.

(** A node that answers from scripts: the results of the submissions,
    the cases the [select] takes, the mempool listings and the mined
    blocks, each consumed from the front. *)
Record Scripted := mkScripted {
  sends : list Promise;
  fires : list Fired;
  pools : list (list Hash);
  blocks : list (Err + list Hash);
  best : Err + (Hash * Z)
}.

Definition client : Client Scripted :=
  {| GetBestBlock nd := (nd, best nd);
     Generate nd _ :=
       match blocks nd with
       | [] => (nd, inl "no block")
       | b :: bs => (mkScripted (sends nd) (fires nd) (pools nd) bs (best nd), b)
       end;
     GetRawMempool nd _ :=
       match pools nd with
       | [] => (nd, [])
       | p :: ps => (mkScripted (sends nd) (fires nd) ps (blocks nd) (best nd), p)
       end;
     SendRawTransactionAsync nd _ :=
       match sends nd with
       | [] => (nd, inl "rejected")
       | r :: rs => (mkScripted rs (fires nd) (pools nd) (blocks nd) (best nd), r)
       end;
     selectCase nd :=
       match fires nd with
       | [] => (nd, TimeoutFired)
       | f :: fs => (mkScripted (sends nd) fs (pools nd) (blocks nd) (best nd), f)
       end |}.

Definition answering (rs : list Promise) : Scripted :=
  mkScripted rs [] [] [] (inl "no chain").

(** A header is read from two bytes here: the height and the price. *)
Definition lib : Lib :=
  {| FromBytes bs :=
       match bs with
       | [h; s] => inr {| Height := Z.to_N h; SBits := s |}
       | _ => inl "unexpected EOF"
       end;
     SignatureScript_ _ _ _ _ := inr [1];
     GenerateSSGenBlockRef _ _ := inr [2];
     CalcStakeVoteSubsidyV2 _ _ := 1;
     CheckSSGen _ := None;
     OpReturnScript data := inr (106 :: data) |}.

(** Activation at 16, ticket maturity 2, coinbase maturity 4, two
    tickets per block: purchases start at height 12. *)
Definition net : Params :=
  {| StakeValidationHeight := 16; TicketMaturity := 2; CoinbaseMaturity := 4;
     TicketsPerBlock := 2; MinimumStakeDiff := 20000; StakeBaseSigScript := [0] |}.

Definition fund (i : Z) (value : Z) : utxoInfo :=
  {| outpoint := {| opHash := [7]; opIndex := i; opTree := wire.TxTreeRegular |};
     amount := value |}.

(** A wallet of [net] with the given funds, tickets, schedule and limit. *)
Definition walletOf (us : list utxoInfo) (tks : gmap (list Z) ticketInfo)
    (mv : gmap Z (list utxoInfo)) (limit : Z) : VotingWallet Scripted :=
  {| ActiveNet := net; privateKey := [9];
     p2sstxVer := 0; p2sstx := [186]; commitScriptVer := 0; commitScript := [106];
     p2pkh := [118]; p2pkhVer := 0; voteScriptVer := 0; voteScript := [106; 1];
     voteRetScriptVer := 0; voteRetScript := [187];
     miner := None; utxos := us; tickets := tks; maturingVotes := mv;
     tspendVotes := []; limitNbVotes := limit |}.

(** The wallet as [Start] leaves it, with four funded outputs. *)
Definition fresh : VotingWallet Scripted :=
  walletOf [fund 0 80000; fund 1 80000; fund 2 80000; fund 3 80000] ∅ ∅ 2.

(** A wallet that owns the tickets [[1]] and [[2]], bought at price 10. *)
Definition holding : VotingWallet Scripted :=
  walletOf [] (<[ [1] := mkTicketInfo 10 ]> (<[ [2] := mkTicketInfo 10 ]> ∅)) ∅ 2.

(** The same wallet once its vote limit was set to 0. *)
Definition muted : VotingWallet Scripted :=
  walletOf [] (<[ [1] := mkTicketInfo 10 ]> (<[ [2] := mkTicketInfo 10 ]> ∅)) ∅ 0.


(** A wallet out of funds, with a payout scheduled at height 20. *)
Definition awaiting : VotingWallet Scripted :=
  walletOf [] ∅ (<[ 20 := [fund 0 11] ]> ∅) 2.

(** A wallet whose vote limit was lowered to 1, below the two tickets
    bought per block. *)
Definition limited : VotingWallet Scripted := walletOf [] ∅ ∅ 1.

(** A node at height 15 that mines block [[42]] and whose mempool, at
    the first poll, holds one ticket and one vote. *)
Definition polled : Scripted :=
  mkScripted [] [TestTimeoutFired] [[[1]]; [[2]]] [inr [[42]]] (inr ([0], 15)).

Definition connected (height price : Z) : blockConnectedNtfn :=
  {| blockHeader := [height; price]; transactions := [] |}.

Definition drawn (height : Z) (wts : list Hash) : winningTicketsNtfn :=
  {| blockHash := [5]; blockHeight := height; winningTickets := wts |}.

End Fixture.

(** ** Making and starting the wallet *)

(** [feeRate], used when sending the funding transaction. *)
Definition feeRate : Z := 10000.

Definition hardcodedPrivateKey : list byte :=
  [0x79; 0xa6; 0x1a; 0xdb; 0xc6; 0xe5; 0xa2; 0xe1;
   0x39; 0xd2; 0x71; 0x3a; 0x54; 0x6e; 0xc7; 0xc8;
   0x75; 0x63; 0x2e; 0x75; 0xf1; 0xdf; 0x9c; 0x3f;
   0xa6; 0x01] ++ replicate 6 0x00.

(** The scripts an address of [stdaddr] gives: each with its version. *)
Record Address := mkAddress {
  VotingRightsScript : Z * Script;
  PaymentScript : Z * Script;
  (** [RewardCommitmentScript(amount, voteFeeLimit, revokeFeeLimit)] *)
  RewardCommitmentScript : Z -> Z -> Z -> Z * Script;
  PayVoteCommitmentScript : Z * Script
}.

(** What the constructor and [Start] call outside the wallet. *)
Record Setup (Node : Type) := mkSetup {
  (** The address of the public key of a private key on a network: the
      calls from [PrivKeyFromBytes] to
      [NewAddressPubKeyHashEcdsaSecp256k1V0]. *)
  addressOfKey : list byte -> Params -> Err + Address;
  (** [txscript.GenerateSSGenVotes] *)
  GenerateSSGenVotes : Z -> Err + Script;
  (** [rpcclient.New]: a client, or an error. *)
  rpcNew : Node -> Node * (Err + unit);
  NotifyBlocks : Node -> Node * option Err;
  NotifyWinningTickets : Node -> Node * option Err;
  (** [hn.SendOutputs(outputs, feeRate)] *)
  SendOutputs : Node -> list TxOut -> Z -> Node * (Err + Hash)
}.
Arguments addressOfKey {Node}.
Arguments GenerateSSGenVotes {Node}.
Arguments rpcNew {Node}.
Arguments NotifyBlocks {Node}.
Arguments NotifyWinningTickets {Node}.
Arguments SendOutputs {Node}.

Section Making.

Context {Node : Type}.
Variable env : Setup Node.

(** The loop that connects to the miner node: [i] is the loop counter,
    [todo] the attempts left. It gives the node, whether a client was
    made, and the durations slept, in milliseconds, oldest first. *)
Fixpoint connect (i : nat) (todo : nat) (nd : Node) : Node * bool * list Z :=
  match todo with
  | O => (nd, false, [])
  | S todo =>
      let '(nd1, made) := rpcNew env nd in
      match made with
      | inr _ => (nd1, true, [])
      | inl _ =>
          let '(nd2, ok, slept) := connect (S i) todo nd1 in
          (nd2, ok, Z.of_nat i * 50 :: slept)
      end
  end.

(** [NewVotingWallet(ctx, hn)] for a harness on the network [net]: the
    node, the durations slept, and the wallet or the error. *)
Definition NewVotingWallet (net : Params) (nd : Node)
    : Node * list Z * (Err + VotingWallet Node) :=
  match addressOfKey env hardcodedPrivateKey net with
  | inl err => (nd, [], inl ("unable to generate address for pubkey: " +:+ err))
  | inr addr =>
      let '(p2sstxVer', p2sstx') := VotingRightsScript addr in
      let '(p2pkhVer', p2pkh') := PaymentScript addr in
      let commitAmount := mul64 (MinimumStakeDiff net) commitAmountMultiplier in
      let '(commitScriptVer', commitScript') :=
        RewardCommitmentScript addr commitAmount 0 16777216 in
      match GenerateSSGenVotes env 1 with
      | inl err => (nd, [], inl ("unable to prepare vote script: " +:+ err))
      | inr voteScript' =>
          let '(voteReturnScriptVer, voteReturnScript) :=
            PayVoteCommitmentScript addr in
          let w :=
            {| ActiveNet := net; privateKey := hardcodedPrivateKey;
               p2sstxVer := p2sstxVer'; p2sstx := p2sstx';
               commitScriptVer := commitScriptVer'; commitScript := commitScript';
               p2pkh := p2pkh'; p2pkhVer := p2pkhVer';
               voteScriptVer := 0; voteScript := voteScript';
               voteRetScriptVer := voteReturnScriptVer;
               voteRetScript := voteReturnScript;
               miner := None; utxos := []; tickets := ∅; maturingVotes := ∅;
               tspendVotes := []; limitNbVotes := Z.of_N (TicketsPerBlock net) |} in
          let '(nd1, connected, slept) := connect 0 20 nd in
          if negb connected then (nd1, slept, inl "unable to connect to miner node")
          else
            let '(nd2, failed1) := NotifyBlocks env nd1 in
            match failed1 with
            | Some err =>
                (nd2, slept,
                 inl ("unable to subscribe to block notifications: " +:+ err))
            | None =>
                let '(nd3, failed2) := NotifyWinningTickets env nd2 in
                match failed2 with
                | Some err =>
                    (nd3, slept,
                     inl ("unable to subscribe to winning tickets notification: "
                          +:+ err))
                | None => (nd3, slept, inr w)
                end
            end
      end
  end.

(** [Start(ctx)]: the wallet, the node, and the error if any. On success
    the notifications are handled from then on. *)
Definition Start (w : VotingWallet Node) (nd : Node)
    : VotingWallet Node * Node * option Err :=
  let value := mul64 (MinimumStakeDiff (ActiveNet w)) commitAmountMultiplier in
  let nbOutputs := Z.to_nat (requiredTicketCount (ActiveNet w)) in
  let outputs := replicate nbOutputs (wire.NewTxOut value (p2pkh w)) in
  let '(nd1, funded) := SendOutputs env nd outputs feeRate in
  match funded with
  | inl err => (w, nd1, Some ("unable to fund voting wallet: " +:+ err))
  | inr txid =>
      let utxos' :=
        map (fun i => {| outpoint := {| opHash := txid; opIndex := Z.of_nat i;
                                        opTree := wire.TxTreeRegular |};
                         amount := value |})
            (seq 0 nbOutputs) in
      (set_utxos w utxos', nd1, None)
  end.

End Making.

(** ** What a run leaves in the wallet *)

Section Logs.

Context {Node : Type}.
Variable lib : Lib.
Variable c : Client Node.

(** The votes submitted while [evs] were handled, with their results. *)
Definition voteLog (w : VotingWallet Node) (nd : Node) (evs : list Event)
    : list (MsgTx * Promise) :=
  flat_map (fun p => match p.1 with
                     | EvWinningTickets _ => sent p.2
                     | _ => []
                     end) (run lib c w nd evs).

(** The number of block-connected notifications among [evs]. *)
Fixpoint blocksIn (evs : list Event) : nat :=
  match evs with
  | [] => 0
  | EvBlockConnected _ :: rest => S (blocksIn rest)
  | _ :: rest => blocksIn rest
  end.

(** The fund [u] is in the pool of [w] or in its schedule. *)
Definition holds (w : VotingWallet Node) (u : utxoInfo) : Prop :=
  u ∈ utxos w \/ exists h us, maturingVotes w !! h = Some us /\ u ∈ us.

(** What no notification and no setter of the event loop changes: the
    network, the key, the scripts and the miner. *)
Definition config (w : VotingWallet Node) :=
  (ActiveNet w, privateKey w, (p2sstxVer w, p2sstx w),
   (commitScriptVer w, commitScript w), (p2pkhVer w, p2pkh w),
   (voteScriptVer w, voteScript w), (voteRetScriptVer w, voteRetScript w),
   miner w).

End Logs.

(** ** More concrete services and wallets *)

Module Scenario.

Import Fixture.

Definition address : Address :=
  {| VotingRightsScript := (0, [186]);
     PaymentScript := (0, [118]);
     RewardCommitmentScript _ _ _ := (0, [106]);
     PayVoteCommitmentScript := (0, [187]) |}.

(** A harness whose node accepts the connection at once and sends the
    funding transaction [[7]]. *)
Definition online : Setup Scripted :=
  {| addressOfKey _ _ := inr address;
     GenerateSSGenVotes _ := inr [106; 1];
     rpcNew nd := (nd, inr tt);
     NotifyBlocks nd := (nd, None);
     NotifyWinningTickets nd := (nd, None);
     SendOutputs nd _ _ := (nd, inr [7]) |}.

(** A harness whose node refuses every connection. *)
Definition offline : Setup Scripted :=
  {| addressOfKey _ _ := inr address;
     GenerateSSGenVotes _ := inr [106; 1];
     rpcNew nd := (nd, inl "connection refused");
     NotifyBlocks nd := (nd, None);
     NotifyWinningTickets nd := (nd, None);
     SendOutputs nd _ _ := (nd, inl "no funds") |}.

(** The library of [Fixture] with a signer that has no key. *)
Definition unsigned : Lib :=
  {| FromBytes := FromBytes lib;
     SignatureScript_ _ _ _ _ := inl "no key";
     GenerateSSGenBlockRef := GenerateSSGenBlockRef lib;
     CalcStakeVoteSubsidyV2 := CalcStakeVoteSubsidyV2 lib;
     CheckSSGen := CheckSSGen lib;
     OpReturnScript := OpReturnScript lib |}.

(** The library of [Fixture] with a check that rejects every vote. *)
Definition strict : Lib :=
  {| FromBytes := FromBytes lib;
     SignatureScript_ := SignatureScript_ lib;
     GenerateSSGenBlockRef := GenerateSSGenBlockRef lib;
     CalcStakeVoteSubsidyV2 := CalcStakeVoteSubsidyV2 lib;
     CheckSSGen _ := Some "bad vote";
     OpReturnScript := OpReturnScript lib |}.

(** The client of [Fixture] with a [Generate] that always fails. *)
Definition mute : Client Scripted :=
  {| GetBestBlock := GetBestBlock client;
     Generate nd _ := (nd, inl "generate is disabled");
     GetRawMempool := GetRawMempool client;
     SendRawTransactionAsync := SendRawTransactionAsync client;
     selectCase := selectCase client |}.

(** A miner that makes block [[77]] whatever the node. *)
Definition quickMiner (nd : Scripted) (n : Z) : Scripted * (Err + list Hash) :=
  (nd, inr [[77]]).

(** A node at height 3 with nothing scripted. *)
Definition early : Scripted := mkScripted [] [] [] [] (inr ([0], 3)).

(** A node at height 3 that mines the blocks [[41]] and [[42]]. *)
Definition mining : Scripted :=
  mkScripted [] [] [] [inr [[41]]; inr [[42]]] (inr ([0], 3)).

Definition tspend (h : Z) (vote : Z) : TreasuryVoteTuple :=
  {| tvHash := replicate 32 h; tvVote := vote |}.

End Scenario.

(** ** Properties *)

Section Properties.

Context {Node : Type}.
Variable lib : Lib.
Variable c : Client Node.

Implicit Types (w : VotingWallet Node) (nd : Node) (d : Done Node).

Lemma to_nat_of_N (n : N) : Z.to_nat (Z.of_N n) = N.to_nat n.
Proof. lia. Qed.

(** *** Submitting and awaiting *)

Lemma sendAll_length nd txs : length (sendAll c nd txs).2 = length txs.
Proof.
  revert nd. induction txs as [|t ts IH]; intros nd; simpl; [done|].
  destruct (SendRawTransactionAsync c nd t) as [nd1 p].
  specialize (IH nd1). destruct (sendAll c nd1 ts) as [nd2 ps]. simpl in *. lia.
Qed.

Lemma recordTickets_insert tks hs price :
  recordTickets tks (map inr hs) price = (insertTickets tks hs price, None).
Proof.
  revert tks. induction hs as [|h hs IH]; intros tks; simpl; [done|]. apply IH.
Qed.

Lemma recordTickets_stops tks hs err rest price :
  recordTickets tks (map inr hs ++ inl err :: rest) price
  = (insertTickets tks hs price, Some ("unable to send ticket tx: " +:+ err)).
Proof.
  revert tks. induction hs as [|h hs IH]; intros tks; simpl; [done|]. apply IH.
Qed.

(** The promises of a completed batch are all accepted, or the loop
    stopped at the first rejected one. *)
Lemma promises_cases (promises : list Promise) :
  (exists hs, promises = map inr hs)
  \/ (exists hs err rest, promises = map inr hs ++ inl err :: rest).
Proof.
  induction promises as [|p ps IH]; [left; by exists []|].
  destruct p as [err|h]; [right; by exists [], err, ps|].
  destruct IH as [[hs ->]|(hs & err & rest & ->)].
  - left. by exists (h :: hs).
  - right. by exists (h :: hs), err, rest.
Qed.

(** *** The vote limit along a run *)

Lemma handleBlockConnectedNtfn_limit w nd ntfn :
  limitNbVotes (wallet (handleBlockConnectedNtfn lib c w nd ntfn)) = limitNbVotes w.
Proof.
  unfold handleBlockConnectedNtfn, releaseMatured.
  repeat case_match; reflexivity.
Qed.

Lemma handleWinningTicketsNtfn_limit w nd ntfn d :
  handleWinningTicketsNtfn lib c w nd ntfn = Returned d ->
  limitNbVotes (wallet d) = limitNbVotes w.
Proof.
  unfold handleWinningTicketsNtfn. intros H.
  repeat case_match; simplify_eq; reflexivity.
Qed.

Lemma step_limit w nd ev d :
  step lib c w nd ev = Returned d -> limitNbVotes (wallet d) <= limitNbVotes w.
Proof.
  destruct ev as [ntfn|ntfn|n|vs]; simpl; intros H.
  - simplify_eq. rewrite handleBlockConnectedNtfn_limit. lia.
  - apply handleWinningTicketsNtfn_limit in H. lia.
  - unfold LimitNbVotes in H. repeat case_match; simplify_eq; simpl; lia.
  - simplify_eq. simpl. lia.
Qed.

(** Every handled event of a run was handled by a wallet whose limit is
    at most the limit the run started with. *)
Lemma run_elem_limit evs w nd ev d :
  (ev, d) ∈ run lib c w nd evs ->
  exists w1 nd1, step lib c w1 nd1 ev = Returned d
                 /\ limitNbVotes w1 <= limitNbVotes w.
Proof.
  revert w nd. induction evs as [|e evs IH]; intros w nd; simpl.
  - intros H. by apply elem_of_nil in H.
  - destruct (step lib c w nd e) as [msg|d0] eqn:Hs.
    + intros H. by apply elem_of_nil in H.
    + intros H. apply elem_of_cons in H as [H|H].
      * simplify_eq. exists w, nd. split; [done|lia].
      * apply IH in H as (w1 & nd1 & H1 & H2). exists w1, nd1. split; [done|].
        apply step_limit in Hs. lia.
Qed.

(** The limit, non-negative when the wallet is made, stays so. *)
Lemma run_elem_limit_nonneg evs w nd ev d :
  0 <= limitNbVotes w ->
  (ev, d) ∈ run lib c w nd evs ->
  0 <= limitNbVotes (wallet d).
Proof.
  revert w nd. induction evs as [|e evs IH]; intros w nd Hw; simpl.
  - intros H. by apply elem_of_nil in H.
  - destruct (step lib c w nd e) as [msg|d0] eqn:Hs.
    + intros H. by apply elem_of_nil in H.
    + assert (0 <= limitNbVotes (wallet d0)) as Hd0.
      { destruct e as [ntfn|ntfn|n|vs]; simpl in Hs.
        - simplify_eq. by rewrite handleBlockConnectedNtfn_limit.
        - apply handleWinningTicketsNtfn_limit in Hs. lia.
        - unfold LimitNbVotes in Hs.
          destruct (Z.ltb_spec n 0); [by simplify_eq|].
          destruct (n >? limitNbVotes w); by simplify_eq.
        - by simplify_eq. }
      intros H. apply elem_of_cons in H as [H|H].
      * by simplify_eq.
      * by eapply IH.
Qed.

(** *** The loop over the winning tickets *)

Lemma createVotes_length w sv brs wts votes nb votes' nb' :
  createVotes lib w sv brs wts votes nb = BuiltVotes votes' nb' ->
  (nb <= length votes)%nat ->
  length votes' = length votes /\ (nb' <= length votes)%nat.
Proof.
  revert votes nb. induction wts as [|wt rest IH]; intros votes nb; simpl.
  - intros H ?. by simplify_eq.
  - destruct (tickets w !! wt) as [t|]; [|by apply IH].
    destruct (votes !! nb) as [v|] eqn:Hv; [|done].
    apply lookup_lt_Some in Hv.
    destruct (buildVote lib w wt t sv brs) as [err|vote]; [done|].
    destruct (Z.of_nat (S nb) >=? limitNbVotes w).
    + intros H _. simplify_eq. rewrite length_insert. split; [done|lia].
    + intros H _. apply IH in H; rewrite ?length_insert in *; [done|lia].
Qed.

Lemma handleWinningTicketsNtfn_batch w nd ntfn d :
  handleWinningTicketsNtfn lib c w nd ntfn = Returned d ->
  Z.of_nat (length (sent d)) <= Z.max 0 (limitNbVotes w).
Proof.
  unfold handleWinningTicketsNtfn. intros H.
  destruct (GenerateSSGenBlockRef _ _ _) as [err|brs].
  { simplify_eq. simpl. lia. }
  destruct (limitNbVotes w <? 0) eqn:Hneg; [done|]. apply Z.ltb_ge in Hneg.
  destruct (createVotes _ _ _ _ _ _ _) as [i n|err|votes nb] eqn:Hc; [done| |].
  { simplify_eq. simpl. lia. }
  apply createVotes_length in Hc as [Hl Hn]; [|lia].
  rewrite length_replicate in Hl, Hn.
  pose proof (sendAll_length nd (take nb votes)) as Hs.
  destruct (sendAll c nd (take nb votes)) as [nd1 promises]. simpl in Hs.
  assert (Z.of_nat (length (zip (take nb votes) promises))
          <= Z.max 0 (limitNbVotes w)).
  { rewrite length_zip_with, Hs, length_take. lia. }
  repeat case_match; simplify_eq; simpl; done.
Qed.

Lemma createVotes_skip w sv brs wt before after votes nb :
  tickets w !! wt = None ->
  createVotes lib w sv brs (before ++ wt :: after) votes nb
  = createVotes lib w sv brs (before ++ after) votes nb.
Proof.
  intros Hwt. revert votes nb.
  induction before as [|b before IH]; intros votes nb; simpl.
  - by rewrite Hwt.
  - repeat case_match; try done; apply IH.
Qed.

Lemma owned_nil_lookup w wts wt :
  owned w wts = [] -> wt ∈ wts -> tickets w !! wt = None.
Proof.
  unfold owned. induction wts as [|x wts IH]; simpl; intros Ho Hin.
  - by apply elem_of_nil in Hin.
  - destruct (tickets w !! x) as [t|] eqn:Hx; simpl in Ho; [done|].
    apply elem_of_cons in Hin as [->|Hin]; [done|by apply IH].
Qed.

Lemma owned_nil_of_none w wts :
  (forall wt, wt ∈ wts -> tickets w !! wt = None) -> owned w wts = [].
Proof.
  unfold owned. induction wts as [|wt wts IH]; intros Hnone; [done|]. simpl.
  rewrite Hnone by apply list_elem_of_here. simpl.
  apply IH. intros x Hx. apply Hnone. by apply list_elem_of_further.
Qed.

(** With no room in the array, the first owned winner is an access at
    index 0 of an array of length 0. *)
Lemma createVotes_no_room w sv brs wts :
  owned w wts <> [] -> createVotes lib w sv brs wts [] 0 = BuiltPanic 0 0.
Proof.
  unfold owned. induction wts as [|wt wts IH]; simpl; [done|].
  destruct (tickets w !! wt) as [t|]; simpl; [done|]. apply IH.
Qed.

Lemma createVotes_none_owned w sv brs wts votes nb :
  owned w wts = [] -> createVotes lib w sv brs wts votes nb = BuiltVotes votes nb.
Proof.
  unfold owned. induction wts as [|wt wts IH]; simpl; [done|].
  destruct (tickets w !! wt) as [t|]; simpl; [done|]. apply IH.
Qed.

(** Below the limit every access is in bounds: the loop is entered with
    [nbVotes < limit] and leaves as soon as the limit is reached. *)
Lemma createVotes_in_bounds w sv brs wts votes nb i n :
  length votes = Z.to_nat (limitNbVotes w) ->
  Z.of_nat nb < limitNbVotes w ->
  createVotes lib w sv brs wts votes nb <> BuiltPanic i n.
Proof.
  revert votes nb. induction wts as [|wt rest IH]; intros votes nb Hl Hn; simpl.
  - done.
  - destruct (tickets w !! wt) as [t|]; [|by apply IH].
    destruct (votes !! nb) as [v|] eqn:Hv.
    + destruct (buildVote lib w wt t sv brs) as [err|vote]; [done|].
      destruct (Z.geb_spec (Z.of_nat (S nb)) (limitNbVotes w)) as [Hge|Hge]; [done|].
      apply IH; [by rewrite length_insert|lia].
    + apply lookup_ge_None in Hv. lia.
Qed.

(** The votes the loop leaves in the array are the votes built, in draw
    order, for the owned winners the limit lets through. *)
Lemma createVotes_built w sv brs wts votes nb votes' nb' :
  createVotes lib w sv brs wts votes nb = BuiltVotes votes' nb' ->
  Z.of_nat nb < limitNbVotes w ->
  exists built,
    Forall2 (fun p v => buildVote lib w p.1 p.2 sv brs = inr v)
      (take (Z.to_nat (limitNbVotes w) - nb) (owned w wts)) built
    /\ take nb' votes' = take nb votes ++ built
    /\ nb' = (nb + length built)%nat.
Proof.
  revert votes nb. induction wts as [|wt rest IH]; intros votes nb; simpl.
  - intros H Hn. simplify_eq. exists []. rewrite take_nil, app_nil_r.
    split; [constructor|]. split; [done|simpl; lia].
  - unfold owned. simpl. fold (owned w rest).
    destruct (tickets w !! wt) as [t|] eqn:Hwt; simpl; [|by apply IH].
    destruct (votes !! nb) as [v|] eqn:Hv; [|done].
    destruct (buildVote lib w wt t sv brs) as [err|vote] eqn:Hb; [done|].
    pose proof (lookup_lt_Some _ _ _ Hv) as Hlt.
    assert (Hstep : take (S nb) (<[nb:=vote]> votes) = take nb votes ++ [vote]).
    { rewrite (take_S_r _ _ vote); [|by apply list_lookup_insert_eq].
      by rewrite take_insert_ge by lia. }
    destruct (Z.geb_spec (Z.of_nat (S nb)) (limitNbVotes w)) as [Hge|Hge];
      intros H Hn.
    + simplify_eq. exists [vote].
      replace (Z.to_nat (limitNbVotes w) - nb)%nat with 1%nat by lia.
      simpl. rewrite take_0. split; [by repeat constructor|].
      split; [done|simpl; lia].
    + apply IH in H as (built & HF & Ht & Hn'); [|lia].
      exists (vote :: built).
      replace (Z.to_nat (limitNbVotes w) - nb)%nat
        with (S (Z.to_nat (limitNbVotes w) - S nb))%nat by lia.
      simpl. split; [by constructor|].
      rewrite Ht, Hstep, <- app_assoc. split; [done|simpl; lia].
Qed.

(** From an array of the limit's length: the batch is built from the
    voters. *)
Lemma createVotes_batch w sv brs wts votes nb :
  0 <= limitNbVotes w ->
  createVotes lib w sv brs wts
    (replicate (Z.to_nat (limitNbVotes w)) wire.emptyTx) 0 = BuiltVotes votes nb ->
  Forall2 (fun p v => buildVote lib w p.1 p.2 sv brs = inr v)
    (voters w wts) (take nb votes).
Proof.
  intros HL H. destruct (decide (limitNbVotes w = 0)) as [H0|H0].
  - unfold voters. rewrite H0 in *. simpl in *.
    destruct (owned w wts) as [|p ps] eqn:Ho.
    + rewrite createVotes_none_owned in H by done. simplify_eq. constructor.
    + rewrite createVotes_no_room in H; [done|by rewrite Ho].
  - apply createVotes_built in H as (built & HF & Ht & _); [|lia].
    rewrite take_0 in Ht. simpl in Ht. rewrite Ht.
    unfold voters. by rewrite Nat.sub_0_r in HF.
Qed.

(** *** What a built vote looks like *)

Lemma buildVote_shape w wt t sv brs vote :
  buildVote lib w wt t sv brs = inr vote ->
  (exists sig, txIn vote !! 1%nat
     = Some (wire.NewTxIn (wire.NewOutPoint wt 0 wire.TxTreeStake) wire.NullValueIn sig))
  /\ txOut vote !! 2%nat
     = Some (newTxOut (add64 (ticketPrice t) sv) (voteRetScriptVer w) (voteRetScript w)).
Proof.
  unfold buildVote. intros H.
  repeat case_match; simplify_eq; simpl; split; eauto.
Qed.
(** *** Awaiting the votes *)

Lemma collectPayouts_spec w sv brs vs batch (promises : list Promise) :
  Forall2 (fun p v => buildVote lib w p.1 p.2 sv brs = inr v) vs batch ->
  length promises = length batch ->
  match collectPayouts promises batch with
  | CollectPanic _ => False
  | CollectError err =>
      exists hs e rest, promises = map inr hs ++ inl e :: rest
                        /\ err = "unable to send vote tx: " +:+ e
  | CollectUtxos us =>
      exists hs, promises = map inr hs /\ us = zip_with (payout sv) hs vs
  end.
Proof.
  intros HF. revert promises.
  induction HF as [|[wt t] v vs batch Hb HF IH]; intros promises Hl.
  - destruct promises; [|done]. simpl. by exists [].
  - destruct promises as [|p ps]; [done|]. simpl in Hl.
    destruct p as [e|h]; simpl.
    { by exists [], e, ps. }
    apply buildVote_shape in Hb as [_ ->]. simpl in *.
    specialize (IH ps ltac:(lia)).
    destruct (collectPayouts ps batch) as [msg|err|us]; [done| |].
    + destruct IH as (hs & e & rest & -> & ->). by exists (h :: hs), e, rest.
    + destruct IH as (hs & -> & ->). by exists (h :: hs).
Qed.

(** *** The ways the vote handler returns *)

Lemma handleWinningTicketsNtfn_cases w nd ntfn d :
  handleWinningTicketsNtfn lib c w nd ntfn = Returned d ->
  (sent d = [] /\ wallet d = w /\ logged d <> [])
  \/ (exists brs batch promises,
        let sv := CalcStakeVoteSubsidyV2 lib (blockHeight ntfn) true in
        Forall2 (fun p v => buildVote lib w p.1 p.2 sv brs = inr v)
          (voters w (winningTickets ntfn)) batch
        /\ sendAll c nd batch = (node d, promises)
        /\ sent d = zip batch promises
        /\ ((exists hs e rest, promises = map inr hs ++ inl e :: rest
                               /\ wallet d = w
                               /\ logged d = ["unable to send vote tx: " +:+ e])
            \/ (exists hs, promises = map inr hs
                           /\ wallet d = set_maturingVotes w
                                (<[ maturingHeightOf w ntfn
                                    := zip_with (payout sv) hs (voters w (winningTickets ntfn)) ]>
                                 (maturingVotes w))
                           /\ logged d = []))).
Proof.
  unfold handleWinningTicketsNtfn. intros H.
  destruct (GenerateSSGenBlockRef _ _ _) as [err|brs].
  { simplify_eq. left. by simpl. }
  destruct (Z.ltb_spec (limitNbVotes w) 0) as [Hneg|Hneg]; [done|].
  destruct (createVotes _ _ _ _ _ _ _) as [i n|err|votes nb] eqn:Hc; [done| |].
  { simplify_eq. left. by simpl. }
  pose proof (createVotes_batch _ _ _ _ _ _ Hneg Hc) as HF.
  pose proof (sendAll_length nd (take nb votes)) as Hs.
  destruct (sendAll c nd (take nb votes)) as [nd1 promises] eqn:Hsend.
  simpl in Hs.
  pose proof (collectPayouts_spec _ _ _ _ _ promises HF Hs) as Hcp.
  right. exists brs, (take nb votes), promises. simpl.
  destruct (collectPayouts promises (take nb votes)) as [msg|err|us]; [done| |].
  - destruct Hcp as (hs & e & rest & -> & ->). simplify_eq. simpl.
    repeat split; try done. left. by exists hs, e, rest.
  - destruct Hcp as (hs & -> & ->). simplify_eq. simpl.
    repeat split; try done. right. by exists hs.
Qed.

Lemma owned_elem w wts wt t :
  (wt, t) ∈ owned w wts -> wt ∈ wts /\ tickets w !! wt = Some t.
Proof.
  unfold owned. intros H. apply list_elem_of_omap in H as (x & Hx & Hf).
  destruct (tickets w !! x) as [t'|] eqn:Ht; simpl in Hf; simplify_eq. done.
Qed.

Lemma voters_elem w wts wt t :
  (wt, t) ∈ voters w wts -> wt ∈ wts /\ tickets w !! wt = Some t.
Proof.
  unfold voters. intros H. apply owned_elem.
  apply elem_of_take in H as (i & Hi & _). by eapply list_elem_of_lookup_2.
Qed.

(** *** The ways the purchase handler returns *)

Lemma buildTickets_shape w us price commit txs :
  buildTickets lib w us price commit = inr txs ->
  Forall2 (fun u tx =>
             (exists sig, txIn tx = [wire.NewTxIn (outpoint u) wire.NullValueIn sig])
             /\ txOut tx = [newTxOut price (p2sstxVer w) (p2sstx w);
                            newTxOut 0 (commitScriptVer w) (commitScript w);
                            wire.NewTxOut (sub64 (amount u) commit) nullPay2SSTXChange])
    us txs.
Proof.
  revert txs. induction us as [|u us IH]; intros txs; simpl.
  - intros H. simplify_eq. constructor.
  - destruct (SignatureScript_ _ _ _ _ _) as [err|sig]; [done|].
    destruct (buildTickets lib w us price commit) as [e|ts]; [done|].
    intros H. simplify_eq. constructor; [|by apply IH].
    split; [by exists sig|done].
Qed.

(** Past the checks of the height and of the available funds. *)
Lemma handleBlockConnectedNtfn_purchase w nd ntfn header :
  FromBytes lib (blockHeader ntfn) = inr header ->
  ticketPurchaseStartHeight (ActiveNet w) <= Z.of_N (Height header) ->
  Z.of_N (TicketsPerBlock (ActiveNet w)) <= Z.of_nat (length (utxos w)) ->
  let d := handleBlockConnectedNtfn lib c w nd ntfn in
  let k := N.to_nat (TicketsPerBlock (ActiveNet w)) in
  let keep := (length (utxos w) - k)%nat in
  let price := add64 (SBits header) (div64 (SBits header) 6) in
  let commit := mul64 (MinimumStakeDiff (ActiveNet w)) commitAmountMultiplier in
  let w1 := set_utxos w (take keep (utxos w)) in
  (sent d = [] /\ logged d <> [] /\ wallet d = w1 /\ (0 < k)%nat)
  \/ (exists txs promises,
        buildTickets lib w1 (drop keep (utxos w)) price commit = inr txs
        /\ sendAll c nd txs = (node d, promises)
        /\ sent d = zip txs promises
        /\ ((exists hs err rest,
               promises = map inr hs ++ inl err :: rest
               /\ wallet d = set_tickets w1 (insertTickets (tickets w) hs price)
               /\ logged d = ["unable to send ticket tx: " +:+ err])
            \/ (exists hs,
                  promises = map inr hs
                  /\ wallet d = releaseMatured
                                  (set_tickets w1 (insertTickets (tickets w) hs price))
                                  (Z.of_N (Height header))
                  /\ logged d = []))).
Proof.
  intros Hh Hlow Hfew. unfold handleBlockConnectedNtfn. rewrite Hh.
  destruct (Z.ltb_spec (Z.of_N (Height header))
              (ticketPurchaseStartHeight (ActiveNet w))) as [?|_]; [lia|].
  destruct (Z.ltb_spec (Z.of_nat (length (utxos w)))
              (Z.of_N (TicketsPerBlock (ActiveNet w)))) as [?|_]; [lia|].
  rewrite to_nat_of_N.
  destruct (buildTickets _ _ _ _ _) as [err|txs] eqn:Hb.
  { left. simpl. repeat split; [done|].
    destruct (N.to_nat (TicketsPerBlock (ActiveNet w))) as [|k'] eqn:Hk; [|lia].
    rewrite Nat.sub_0_r, drop_all in Hb. done. }
  right. destruct (sendAll c nd txs) as [nd1 promises] eqn:Hs.
  exists txs, promises. simpl.
  destruct (promises_cases promises) as [[hs ->]|(hs & err & rest & ->)].
  - rewrite recordTickets_insert. simpl. do 3 (split; [done|]).
    right. by exists hs.
  - rewrite recordTickets_stops. simpl. do 3 (split; [done|]).
    left. by exists hs, err, rest.
Qed.

Lemma handleBlockConnectedNtfn_cases w nd ntfn :
  let d := handleBlockConnectedNtfn lib c w nd ntfn in
  (wallet d = w /\ sent d = []
   /\ (logged d <> []
       \/ exists header, FromBytes lib (blockHeader ntfn) = inr header
            /\ Z.of_N (Height header) < ticketPurchaseStartHeight (ActiveNet w)))
  \/ (exists header,
        FromBytes lib (blockHeader ntfn) = inr header
        /\ ticketPurchaseStartHeight (ActiveNet w) <= Z.of_N (Height header)
        /\ Z.of_N (TicketsPerBlock (ActiveNet w)) <= Z.of_nat (length (utxos w))).
Proof.
  unfold handleBlockConnectedNtfn.
  destruct (FromBytes lib (blockHeader ntfn)) as [err|header] eqn:Hh.
  { left. simpl. repeat split. by left. }
  destruct (Z.ltb_spec (Z.of_N (Height header))
              (ticketPurchaseStartHeight (ActiveNet w))) as [Hlow|Hlow].
  { left. simpl. repeat split. right. by exists header. }
  destruct (Z.ltb_spec (Z.of_nat (length (utxos w)))
              (Z.of_N (TicketsPerBlock (ActiveNet w)))) as [Hfew|Hfew].
  { left. simpl. repeat split. by left. }
  right. by exists header.
Qed.

(** *** Reading the results of a batch *)

Lemma results_split_inj (hs hs' : list Hash) (e e' : Err) (r r' : list Promise) :
  map inr hs ++ inl e :: r = map inr hs' ++ inl e' :: r' ->
  hs = hs' /\ e = e' /\ r = r'.
Proof.
  revert hs'. induction hs as [|h hs IH]; intros [|h' hs']; simpl; intros H;
    try done.
  - by simplify_eq.
  - injection H as -> H. apply IH in H as (-> & -> & ->). done.
Qed.

Lemma results_all_accepted (hs hs' : list Hash) (e : Err) (r : list Promise) :
  map inr hs' = map inr hs ++ inl e :: r -> False.
Proof.
  revert hs'. induction hs as [|h hs IH]; intros [|h' hs']; simpl; intros H;
    try done.
  injection H as -> H. by eapply IH.
Qed.

Lemma sent_results (txs : list MsgTx) (promises : list Promise) :
  length promises = length txs -> map snd (zip txs promises) = promises.
Proof. intros H. apply snd_zip. lia. Qed.

Lemma buildTickets_length w us price commit txs :
  buildTickets lib w us price commit = inr txs -> length txs = length us.
Proof. intros H. apply buildTickets_shape in H. by apply Forall2_length in H. Qed.

Lemma sendAll_results nd txs nd1 promises :
  sendAll c nd txs = (nd1, promises) -> length promises = length txs.
Proof. intros H. pose proof (sendAll_length nd txs) as Hl. by rewrite H in Hl. Qed.

(** *** Recorded tickets *)

Lemma insertTickets_lookup tks hs price (h : Hash) :
  insertTickets tks hs price !! h
  = if decide (h ∈ hs) then Some {| ticketPrice := price |} else tks !! h.
Proof.
  revert tks. induction hs as [|h0 hs IH]; intros tks; simpl.
  - destruct (decide (h ∈ [])) as [Hin|_]; [by apply elem_of_nil in Hin|done].
  - unfold insertTickets in *. simpl. rewrite IH.
    destruct (decide (h ∈ hs)) as [Hin|Hin].
    + rewrite decide_True; [done|by apply list_elem_of_further].
    + destruct (decide (h0 = h)) as [->|Hne].
      * rewrite lookup_insert_eq. rewrite decide_True; [done|apply list_elem_of_here].
      * rewrite lookup_insert_ne by done. rewrite decide_False; [done|].
        intros Hc. apply elem_of_cons in Hc as [?|?]; congruence.
Qed.

Lemma insertTickets_size tks hs price :
  NoDup hs -> (forall h, h ∈ hs -> tks !! h = None) ->
  size (insertTickets tks hs price) = (size tks + length hs)%nat.
Proof.
  revert tks. induction hs as [|h0 hs IH]; intros tks Hnd Hfresh; simpl.
  - unfold insertTickets. simpl. lia.
  - apply NoDup_cons in Hnd as [Hnotin Hnd].
    unfold insertTickets in *. simpl. rewrite IH; [|done|].
    + rewrite map_size_insert_None; [lia|]. apply Hfresh, list_elem_of_here.
    + intros h Hh. rewrite lookup_insert_ne by congruence.
      by apply Hfresh, list_elem_of_further.
Qed.



(** *** The schedule of maturing payouts *)





Lemma releaseMatured_fields w (h : Z) :
  maturingVotes (releaseMatured w h) = delete h (maturingVotes w)
  /\ utxos (releaseMatured w h) = utxos w ++ default [] (maturingVotes w !! h)
  /\ tickets (releaseMatured w h) = tickets w.
Proof.
  unfold releaseMatured. destruct (maturingVotes w !! h) as [mv|] eqn:Hh; simpl.
  - done.
  - by rewrite delete_id, app_nil_r.
Qed.


(** *** Arithmetic of the ticket price *)

Lemma wrap64_id (z : Z) : inInt64 z -> wrap64 z = z.
Proof.
  unfold inInt64, wrap64. intros Hz.
  rewrite Z.mod_small by lia. lia.
Qed.

Lemma quot6_inInt64 (z : Z) : inInt64 z -> inInt64 (z ÷ 6).
Proof.
  unfold inInt64. intros Hz.
  pose proof (Z.quot_rem' z 6) as Hq.
  destruct (Z_le_gt_dec 0 z) as [Hpos|Hneg].
  - pose proof (Z.rem_bound_pos z 6 Hpos ltac:(lia)). lia.
  - pose proof (Z.rem_bound_pos_neg z 6 ltac:(lia) ltac:(lia)). lia.
Qed.

(** *** Where a recorded ticket comes from *)

Lemma accepted_has_tx (txs : list MsgTx) (promises rest : list Promise)
    (hs : list Hash) (h : Hash) :
  promises = map inr hs ++ rest ->
  length promises = length txs ->
  h ∈ hs ->
  exists i tx, txs !! i = Some tx /\ (tx, inr h) ∈ zip txs promises.
Proof.
  intros -> Hl Hin. apply list_elem_of_lookup in Hin as [i Hi].
  assert (Hp : (map inr hs ++ rest : list Promise) !! i = Some (inr h)).
  { apply lookup_app_l_Some. by rewrite list_lookup_fmap, Hi. }
  destruct (lookup_lt_is_Some_2 txs i) as [tx Htx].
  { rewrite <- Hl. by eapply lookup_lt_Some. }
  exists i, tx. split; [done|].
  apply elem_of_lookup_zip_with. by exists i, tx, (inr h).
Qed.

Lemma rejected_has_tx (txs : list MsgTx) (promises rest : list Promise)
    (hs : list Hash) (e : Err) :
  promises = map inr hs ++ inl e :: rest ->
  length promises = length txs ->
  exists tx, (tx, inl e) ∈ zip txs promises.
Proof.
  intros -> Hl.
  assert (Hp : (map inr hs ++ inl e :: rest : list Promise) !! length hs
               = Some (inl e)).
  { apply list_lookup_middle. by rewrite length_map. }
  destruct (lookup_lt_is_Some_2 txs (length hs)) as [tx Htx].
  { rewrite <- Hl. by eapply lookup_lt_Some. }
  exists tx. apply elem_of_lookup_zip_with. by exists (length hs), tx, (inl e).
Qed.

Lemma handleBlockConnectedNtfn_tickets w nd ntfn (h : Hash) t :
  let d := handleBlockConnectedNtfn lib c w nd ntfn in
  tickets (wallet d) !! h = Some t ->
  tickets w !! h = Some t
  \/ exists tx, (tx, inr h) ∈ sent d
                 /\ Value <$> txOut tx !! 0%nat = Some (ticketPrice t).
Proof.
  intros d Ht.
  destruct (handleBlockConnectedNtfn_cases w nd ntfn)
    as [(Hw & _)|(header & Hh & Hlow & Hfew)].
  { left. subst d. by rewrite Hw in Ht. }
  destruct (handleBlockConnectedNtfn_purchase w nd ntfn _ Hh Hlow Hfew)
    as [(_ & _ & Hw & _)|(txs & promises & Hb & Hsend & Hs & Hc)].
  { left. subst d. by rewrite Hw in Ht. }
  pose proof (sendAll_results _ _ _ _ Hsend) as Hl.
  pose proof (buildTickets_shape _ _ _ _ _ Hb) as Hshape.
  set (price := add64 (SBits header) (div64 (SBits header) 6)) in *.
  assert (Hgen : forall hs rest,
             promises = map inr hs ++ rest ->
             insertTickets (tickets w) hs price !! h = Some t ->
             tickets w !! h = Some t
             \/ exists tx, (tx, inr h) ∈ sent d
                   /\ Value <$> txOut tx !! 0%nat = Some (ticketPrice t)).
  { intros hs rest Hp Hlook. rewrite insertTickets_lookup in Hlook.
    destruct (decide (h ∈ hs)) as [Hin|_]; [|by left]. right.
    destruct (accepted_has_tx txs promises rest hs h Hp Hl Hin)
      as (i & tx & Htx & Hz).
    exists tx. subst d. rewrite Hs. split; [done|].
    destruct (Forall2_lookup_r _ _ _ _ _ Hshape Htx) as (u & _ & _ & ->).
    simplify_eq. done. }
  subst d. destruct Hc as [(hs & err & rest & Hp & Hw & _)|(hs & Hp & Hw & _)].
  - rewrite Hw in Ht. simpl in Ht. by eapply Hgen.
  - rewrite Hw in Ht.
    destruct (releaseMatured_fields
                (set_tickets
                   (set_utxos w (take (length (utxos w)
                                       - N.to_nat (TicketsPerBlock (ActiveNet w)))
                                   (utxos w)))
                   (insertTickets (tickets w) hs price))
                (Z.of_N (Height header))) as (_ & _ & Htk).
    rewrite Htk in Ht. simpl in Ht.
    apply (Hgen hs []); [by rewrite app_nil_r|done].
Qed.

Lemma step_tickets w nd ev d (h : Hash) t :
  step lib c w nd ev = Returned d ->
  tickets (wallet d) !! h = Some t ->
  tickets w !! h = Some t
  \/ exists ntfn tx, ev = EvBlockConnected ntfn
        /\ (tx, inr h) ∈ sent d
        /\ Value <$> txOut tx !! 0%nat = Some (ticketPrice t).
Proof.
  destruct ev as [ntfn|ntfn|n|vs]; simpl; intros Hstep Ht.
  - simplify_eq. apply handleBlockConnectedNtfn_tickets in Ht as [?|(tx & ? & ?)].
    + by left.
    + right. by exists ntfn, tx.
  - left. unfold handleWinningTicketsNtfn in Hstep.
    repeat case_match; simplify_eq; done.
  - left. unfold LimitNbVotes in Hstep. repeat case_match; simplify_eq; done.
  - left. by simplify_eq.
Qed.

(** *** The vote limit *)

(** C4. [LimitNbVotes] with a negative value fails with its own error;
    with a value above the current limit it fails with the "cannot
    increase" error, and in both cases the wallet, so also the limit, is
    the one before; with a non-negative value up to the current limit it
    succeeds and sets the limit, and every batch of votes submitted by a
    winning-tickets event handled afterwards, whatever else is handled
    in between, has at most that many votes. *)
Theorem LimitNbVotes_spec w (newLimit : Z) :
  0 <= limitNbVotes w ->
  (newLimit < 0 ->
     LimitNbVotes w newLimit = (w, Some "cannot use negative number of votes"))
  /\ (limitNbVotes w < newLimit ->
        LimitNbVotes w newLimit = (w, Some "cannot increase number of votes"))
  /\ "cannot use negative number of votes" <> "cannot increase number of votes"
  /\ (0 <= newLimit <= limitNbVotes w ->
        exists w', LimitNbVotes w newLimit = (w', None)
          /\ limitNbVotes w' = newLimit
          /\ forall nd evs ntfn d,
               (EvWinningTickets ntfn, d) ∈ run lib c w' nd evs ->
               Z.of_nat (length (sent d)) <= newLimit).
Proof.
  intros Hw. unfold LimitNbVotes. repeat split.
  - intros Hn. destruct (Z.ltb_spec newLimit 0); [done|lia].
  - intros Hn. destruct (Z.ltb_spec newLimit 0); [lia|].
    destruct (Z.gtb_spec newLimit (limitNbVotes w)); [done|lia].
  - done.
  - intros [Hn0 Hn]. exists (set_limitNbVotes w newLimit).
    destruct (Z.ltb_spec newLimit 0); [lia|].
    destruct (Z.gtb_spec newLimit (limitNbVotes w)); [lia|].
    repeat split. intros nd evs ntfn d Hin.
    apply run_elem_limit in Hin as (w1 & nd1 & Hstep & Hle).
    simpl in Hstep, Hle. apply handleWinningTicketsNtfn_batch in Hstep. lia.
Qed.

(** C9. The accesses [votes[nbVotes]] of the loop over the winning
    tickets, for an array of the length [L] of the vote limit: with
    [L >= 1] no access is out of bounds and the loop leaves at most [L]
    votes in an array still of length [L]; with [L = 0] and an owned
    ticket among the winners the first access is [votes[0]] on an array
    of length 0, and the handler panics there; with [L = 0] and no owned
    winner nothing is accessed. *)
Theorem vote_array_bounds w sv brs (wts : list Hash) :
  let L := limitNbVotes w in
  let votes0 := replicate (Z.to_nat L) wire.emptyTx in
  (1 <= L ->
     (forall i n, createVotes lib w sv brs wts votes0 0 <> BuiltPanic i n)
     /\ (forall votes nb,
           createVotes lib w sv brs wts votes0 0 = BuiltVotes votes nb ->
           length votes = Z.to_nat L /\ Z.of_nat nb <= L))
  /\ (L = 0 ->
        (exists wt, wt ∈ wts /\ is_Some (tickets w !! wt)) ->
        createVotes lib w sv brs wts votes0 0 = BuiltPanic 0 0
        /\ forall nd ntfn blockRefScript,
             winningTickets ntfn = wts ->
             GenerateSSGenBlockRef lib (blockHash ntfn) (toUint32 (blockHeight ntfn))
             = inr blockRefScript ->
             handleWinningTicketsNtfn lib c w nd ntfn
             = Panic "index out of range [0] with length 0")
  /\ (L = 0 ->
        (forall wt, wt ∈ wts -> tickets w !! wt = None) ->
        createVotes lib w sv brs wts votes0 0 = BuiltVotes [] 0).
Proof.
  intros L votes0. subst L votes0.
  assert (Hown : (exists wt, wt ∈ wts /\ is_Some (tickets w !! wt)) ->
                 owned w wts <> []).
  { intros (wt & Hin & [t Ht]) Ho.
    by rewrite (owned_nil_lookup _ _ _ Ho Hin) in Ht. }
  split; [|split].
  - intros HL. split.
    + intros i n. apply createVotes_in_bounds; [by rewrite length_replicate|lia].
    + intros votes nb Hc. apply createVotes_length in Hc as [Hl Hn]; [|lia].
      rewrite length_replicate in Hl, Hn. split; [done|lia].
  - intros HL Hex. rewrite HL. simpl. split.
    + apply createVotes_no_room. by apply Hown.
    + intros nd ntfn brs' Hw Hb. unfold handleWinningTicketsNtfn.
      rewrite Hb, HL. simpl. rewrite Hw, createVotes_no_room; [done|].
      by apply Hown.
  - intros HL Hnone. rewrite HL. simpl. apply createVotes_none_owned.
    by apply owned_nil_of_none.
Qed.

(** C7. A winning ticket that is not in the ticket map changes nothing:
    the handler does with the draw exactly what it does with the draw
    without that identifier, so the other winners keep the same places
    under the vote limit; and no submitted vote spends it, every vote
    spending a ticket of the map. *)
Theorem unowned_winner_ignored w nd ntfn (wt : Hash) (before after : list Hash) :
  tickets w !! wt = None ->
  winningTickets ntfn = before ++ wt :: after ->
  handleWinningTicketsNtfn lib c w nd ntfn
  = handleWinningTicketsNtfn lib c w nd
      {| blockHash := blockHash ntfn; blockHeight := blockHeight ntfn;
         winningTickets := before ++ after |}
  /\ forall d tx p,
       handleWinningTicketsNtfn lib c w nd ntfn = Returned d ->
       (tx, p) ∈ sent d ->
       exists inp, txIn tx !! 1%nat = Some inp
                   /\ opHash (PreviousOutPoint inp) <> wt
                   /\ is_Some (tickets w !! opHash (PreviousOutPoint inp)).
Proof.
  intros Hwt Hwin. split.
  - unfold handleWinningTicketsNtfn. cbn [blockHash blockHeight winningTickets].
    rewrite Hwin. destruct (GenerateSSGenBlockRef _ _ _) as [err|brs]; [done|].
    destruct (limitNbVotes w <? 0); [done|].
    by rewrite (createVotes_skip _ _ _ wt) by done.
  - intros d tx p Hd Hin.
    apply handleWinningTicketsNtfn_cases in Hd
      as [(Hs & _)|(brs & batch & promises & HF & _ & Hs & _)].
    { rewrite Hs in Hin. by apply elem_of_nil in Hin. }
    rewrite Hs in Hin. apply elem_of_zip_l in Hin.
    apply list_elem_of_lookup in Hin as [i Hi].
    destruct (Forall2_lookup_r _ _ _ _ _ HF Hi) as ([wt' t] & Hv & Hb).
    apply list_elem_of_lookup_2, voters_elem in Hv as [_ Ht].
    apply buildVote_shape in Hb as [[sig Hin1] _]. simpl in *.
    exists (wire.NewTxIn (wire.NewOutPoint wt' 0 wire.TxTreeStake) wire.NullValueIn sig).
    split; [done|]. simpl. split; [congruence|by rewrite Ht].
Qed.

(** C10. A submission that fails in the middle of a batch ends the
    handler with no rollback. Purchase handler: when the results of its
    submissions are [i] acceptances and then a failure, all [k] tickets
    were submitted, the [k] selected funds stay removed from the pool,
    the tickets recorded are those of the first [i] submissions, and the
    schedule of maturing payouts is untouched, the entry of the current
    height included. Vote handler: when any submitted vote fails the
    wallet is left as it was, so no entry is created for the draw, also
    not for the votes that were accepted. *)
Theorem partial_failure_no_rollback w nd :
  (forall ntfn header hs err rest,
     FromBytes lib (blockHeader ntfn) = inr header ->
     let d := handleBlockConnectedNtfn lib c w nd ntfn in
     let k := N.to_nat (TicketsPerBlock (ActiveNet w)) in
     map snd (sent d) = map inr hs ++ inl err :: rest ->
     length (sent d) = k
     /\ utxos (wallet d) = take (length (utxos w) - k) (utxos w)
     /\ tickets (wallet d)
        = insertTickets (tickets w) hs (add64 (SBits header) (div64 (SBits header) 6))
     /\ maturingVotes (wallet d) = maturingVotes w
     /\ logged d = ["unable to send ticket tx: " +:+ err])
  /\ (forall ntfn d tx err,
        handleWinningTicketsNtfn lib c w nd ntfn = Returned d ->
        (tx, inl err) ∈ sent d ->
        wallet d = w /\ maturingVotes (wallet d) = maturingVotes w /\ logged d <> []).
Proof.
  split.
  - intros ntfn header hs err rest Hh d k Hres. subst d k.
    destruct (handleBlockConnectedNtfn_cases w nd ntfn)
      as [(_ & Hs & _)|(header' & Hh' & Hlow & Hfew)].
    { rewrite Hs in Hres. by destruct hs. }
    rewrite Hh in Hh'. simplify_eq.
    destruct (handleBlockConnectedNtfn_purchase w nd ntfn _ Hh Hlow Hfew)
      as [(Hs & _)|(txs & promises & Hb & Hsend & Hs & Hrest)].
    { rewrite Hs in Hres. by destruct hs. }
    pose proof (sendAll_results _ _ _ _ Hsend) as Hlen.
    pose proof (buildTickets_length _ _ _ _ _ Hb) as Hlt.
    rewrite Hs, sent_results in Hres by done.
    destruct Hrest as [(hs' & err' & rest' & Hp & Hw & Hl)|(hs' & Hp & _)].
    + rewrite Hp in Hres. apply results_split_inj in Hres as (-> & -> & ->).
      rewrite Hw, Hl, Hs. simpl. repeat split.
      rewrite length_zip_with, Hlen, Hlt, length_drop. lia.
    + rewrite Hp in Hres. by apply results_all_accepted in Hres.
  - intros ntfn d tx err Hd Hin.
    apply handleWinningTicketsNtfn_cases in Hd
      as [(Hs & _)|(brs & batch & promises & _ & _ & Hs & Hrest)].
    { rewrite Hs in Hin. by apply elem_of_nil in Hin. }
    destruct Hrest as [(hs & e & rest & _ & Hw & Hl)|(hs & Hp & _)].
    + rewrite Hw, Hl. done.
    + rewrite Hs, Hp in Hin. apply elem_of_zip_r in Hin.
      apply list_elem_of_fmap in Hin as (h & Hh & _). done.
Qed.

(** C5, amended. When the purchase handler processes a block-connected
    event at a height at or after the purchase start with at least
    [k = TicketsPerBlock] unlocked funds, exactly the [k] funds added
    last are taken from the pool, whatever happens next, and the price
    is [SBits + SBits / 6] in [int64] arithmetic (the exact sum when it
    fits). When moreover all [k] submissions are accepted, [k] tickets
    are recorded under the returned identifiers, each with that price,
    the other entries of the map stay as they were, the funds maturing
    at this height join the pool, and the map has exactly [k] more
    tickets when the identifiers are distinct and new. *)
Theorem purchase_records_tickets w nd ntfn header :
  FromBytes lib (blockHeader ntfn) = inr header ->
  ticketPurchaseStartHeight (ActiveNet w) <= Z.of_N (Height header) ->
  Z.of_N (TicketsPerBlock (ActiveNet w)) <= Z.of_nat (length (utxos w)) ->
  let d := handleBlockConnectedNtfn lib c w nd ntfn in
  let k := N.to_nat (TicketsPerBlock (ActiveNet w)) in
  let keep := (length (utxos w) - k)%nat in
  let price := add64 (SBits header) (div64 (SBits header) 6) in
  length (drop keep (utxos w)) = k
  /\ (exists matured,
        utxos (wallet d) = take keep (utxos w) ++ matured
        /\ (matured = []
            \/ maturingVotes w !! Z.of_N (Height header) = Some matured))
  /\ (inInt64 (SBits header) -> inInt64 (SBits header + SBits header ÷ 6) ->
      price = SBits header + SBits header ÷ 6)
  /\ forall hs,
       map snd (sent d) = map inr hs -> length hs = k ->
       logged d = []
       /\ utxos (wallet d)
          = take keep (utxos w)
            ++ default [] (maturingVotes w !! Z.of_N (Height header))
       /\ tickets (wallet d) = insertTickets (tickets w) hs price
       /\ (forall h, h ∈ hs ->
             tickets (wallet d) !! h = Some {| ticketPrice := price |})
       /\ (forall h, h ∉ hs -> tickets (wallet d) !! h = tickets w !! h)
       /\ (NoDup hs -> (forall h, h ∈ hs -> tickets w !! h = None) ->
           size (tickets (wallet d)) = (size (tickets w) + k)%nat).
Proof.
  intros Hh Hlow Hfew d k keep price.
  pose proof (handleBlockConnectedNtfn_purchase w nd ntfn _ Hh Hlow Hfew) as Hc.
  simpl in Hc. fold d k keep price in Hc.
  assert (Hk : length (drop keep (utxos w)) = k).
  { rewrite length_drop. subst keep k. lia. }
  split; [done|]. split; [|split].
  - destruct Hc as [(_ & _ & -> & _)|(txs & promises & _ & _ & _ & Hc)].
    { exists []. simpl. rewrite app_nil_r. by split; [|left]. }
    destruct Hc as [(hs & err & rest & _ & -> & _)|(hs & _ & -> & _)].
    { exists []. simpl. rewrite app_nil_r. by split; [|left]. }
    destruct (releaseMatured_fields
                (set_tickets (set_utxos w (take keep (utxos w)))
                   (insertTickets (tickets w) hs price))
                (Z.of_N (Height header))) as (_ & -> & _). simpl.
    destruct (maturingVotes w !! Z.of_N (Height header)) as [mv|]; simpl.
    + exists mv. by split; [|right].
    + exists []. by split; [|left].
  - intros H1 H2. subst price. unfold add64, div64.
    rewrite (wrap64_id (SBits header ÷ 6)) by by apply quot6_inInt64.
    by apply wrap64_id.
  - intros hs Hres Hlen.
    destruct Hc as [(Hs & _ & _ & Hpos)|(txs & promises & Hb & Hsend & Hs & Hc)].
    { rewrite Hs in Hres. destruct hs; [simpl in Hlen; lia|done]. }
    pose proof (sendAll_results _ _ _ _ Hsend) as Hl.
    rewrite Hs, sent_results in Hres by done.
    destruct Hc as [(hs' & err & rest & Hp & _)|(hs' & Hp & Hw & Hlog)].
    { rewrite Hp in Hres. symmetry in Hres. by apply results_all_accepted in Hres. }
    rewrite Hp in Hres. apply (inj (fmap inr)) in Hres. subst hs'.
    destruct (releaseMatured_fields
                (set_tickets (set_utxos w (take keep (utxos w)))
                   (insertTickets (tickets w) hs price))
                (Z.of_N (Height header))) as (_ & Hu & Ht).
    rewrite <- Hw in Hu, Ht. simpl in Hu, Ht.
    split; [done|]. split; [done|]. split; [done|].
    rewrite Ht. split; [|split].
    + intros h Hin. rewrite insertTickets_lookup. by rewrite decide_True.
    + intros h Hin. rewrite insertTickets_lookup. by rewrite decide_False.
    + intros Hnd Hfresh. rewrite insertTickets_size by done. lia.
Qed.

(** X24. The ticket map along a run. The vote handler leaves the map as
    it finds it. Every ticket in the map that the wallet did not start with
    was recorded for a purchase transaction the node accepted under that
    identifier, whose first output carries the recorded price. *)
Lemma tickets_accounted w nd :
  (forall ntfn d,
     handleWinningTicketsNtfn lib c w nd ntfn = Returned d ->
     tickets (wallet d) = tickets w)
  /\ (forall evs (h : Hash) t,
        tickets (walletAfter lib c w nd evs) !! h = Some t ->
        tickets w !! h = Some t
        \/ exists tx, (tx, inr h) ∈ purchaseLog lib c w nd evs
                       /\ Value <$> txOut tx !! 0%nat = Some (ticketPrice t)).
Proof.
  split.
  - intros ntfn d Hd. unfold handleWinningTicketsNtfn in Hd.
    repeat case_match; simplify_eq; done.
  - intros evs. revert w nd. induction evs as [|ev evs IH]; intros w nd h t; simpl.
    + by left.
    + unfold purchaseLog. simpl.
      destruct (step lib c w nd ev) as [msg|d] eqn:Hstep; [by left|].
      intros Ht. apply IH in Ht as [Ht|(tx & Hin & Hv)].
      * apply (step_tickets _ _ _ _ _ _ Hstep) in Ht
          as [?|(ntfn & tx & -> & Hin & Hv)]; [by left|].
        right. exists tx. split; [|done]. simpl.
        apply elem_of_app. by left.
      * right. exists tx. split; [|done]. simpl.
        apply elem_of_app. by right.
Qed.

(** C2, amended. When the vote handler returns from a draw at height
    [H] without reporting an error, every vote of the draw was built,
    submitted and accepted, and the schedule gets, at
    [H + CoinbaseMaturity], the entry made of one fund per vote, each
    worth the ticket's price plus the subsidy, in place of whatever was
    stored there; the pool is untouched. When it reports an error the
    wallet, so the whole schedule, is left as it was, and either nothing
    was submitted (the block reference or a vote could not be built) or
    a submission failed; a failed submission is always reported, so no
    entry is written then, also not for the votes that were accepted. A
    block-connected event for the height [h] never touches the entry of
    another height; when it is at or after the purchase start and the
    handler reports no error, the entry of [h] is removed and its funds
    are appended to the pool; when the handler reports an error or [h]
    is below the purchase start, the schedule is left as it was. *)
Theorem payouts_scheduled_and_released w nd :
  (forall ntfn d,
     handleWinningTicketsNtfn lib c w nd ntfn = Returned d ->
     let sv := CalcStakeVoteSubsidyV2 lib (blockHeight ntfn) true in
     let vs := voters w (winningTickets ntfn) in
     (logged d = [] ->
      exists hs,
        map snd (sent d) = map inr hs
        /\ length hs = length vs
        /\ maturingVotes (wallet d)
           = <[ maturingHeightOf w ntfn := zip_with (payout sv) hs vs ]>
               (maturingVotes w)
        /\ utxos (wallet d) = utxos w)
     /\ (logged d <> [] ->
         wallet d = w
         /\ (sent d = [] \/ exists tx err, (tx, inl err) ∈ sent d))
     /\ (forall tx err, (tx, inl err) ∈ sent d ->
           logged d <> [] /\ maturingVotes (wallet d) = maturingVotes w))
  /\ (forall ntfn header,
        FromBytes lib (blockHeader ntfn) = inr header ->
        let d := handleBlockConnectedNtfn lib c w nd ntfn in
        let h := Z.of_N (Height header) in
        let keep :=
          (length (utxos w) - N.to_nat (TicketsPerBlock (ActiveNet w)))%nat in
        (forall h', h' <> h ->
           maturingVotes (wallet d) !! h' = maturingVotes w !! h')
        /\ (ticketPurchaseStartHeight (ActiveNet w) <= h -> logged d = [] ->
            maturingVotes (wallet d) = delete h (maturingVotes w)
            /\ utxos (wallet d)
               = take keep (utxos w) ++ default [] (maturingVotes w !! h))
        /\ (logged d <> [] \/ h < ticketPurchaseStartHeight (ActiveNet w) ->
            maturingVotes (wallet d) = maturingVotes w)).
Proof.
  split.
  - intros ntfn d Hd sv vs.
    apply handleWinningTicketsNtfn_cases in Hd
      as [(Hs & Hw & Hne)|(brs & batch & promises & HF & Hsend & Hs & Hc)].
    { split; [done|]. split; [intros _; split; [done|by left]|].
      intros tx err Hin. rewrite Hs in Hin. by apply elem_of_nil in Hin. }
    simpl in HF, Hc. fold sv vs in HF, Hc.
    pose proof (sendAll_results _ _ _ _ Hsend) as Hlen.
    destruct Hc as [(hs & e & rest & Hp & Hw & Hl)|(hs & Hp & Hw & Hl)].
    + split; [by rewrite Hl|]. split.
      * intros _. split; [done|]. right.
        destruct (rejected_has_tx batch promises rest hs e Hp Hlen) as [tx Htx].
        exists tx, e. by rewrite Hs.
      * intros tx err _. by rewrite Hl, Hw.
    + split; [|split].
      * intros _. apply Forall2_length in HF.
        exists hs. rewrite Hs, sent_results by done. rewrite Hw. simpl.
        repeat split; [done|].
        rewrite Hp, length_map in Hlen. lia.
      * by rewrite Hl.
      * intros tx err Hin. exfalso. rewrite Hs, Hp in Hin.
        apply elem_of_zip_r in Hin.
        apply list_elem_of_fmap in Hin as (h & Hh & _). done.
  - intros ntfn header Hh d h keep.
    destruct (handleBlockConnectedNtfn_cases w nd ntfn)
      as [(Hw & _ & Hwhy)|(header' & Hh' & Hlow & Hfew)].
    { fold d in Hw, Hwhy. rewrite Hw. split; [done|]. split; [|done].
      intros Hlow Hlog. exfalso. destruct Hwhy as [?|(hd & Hhd & ?)]; [done|].
      rewrite Hh in Hhd. simplify_eq. subst h. lia. }
    assert (header' = header) as -> by congruence.
    destruct (handleBlockConnectedNtfn_purchase w nd ntfn _ Hh Hlow Hfew)
      as [(_ & Hne & Hw & _)|(txs & promises & _ & _ & _ & Hc)].
    { fold d in Hne, Hw. rewrite Hw. simpl. split; [done|]. split; done. }
    fold d h keep in Hc.
    destruct Hc as [(hs & err & rest & _ & Hw & Hl)|(hs & _ & Hw & Hl)].
    { rewrite Hw, Hl. simpl. split; [done|]. split; done. }
    destruct (releaseMatured_fields
                (set_tickets (set_utxos w (take keep (utxos w)))
                   (insertTickets (tickets w) hs
                      (add64 (SBits header) (div64 (SBits header) 6)))) h)
      as (Hm & Hu & _).
    rewrite <- Hw in Hm, Hu. simpl in Hm, Hu. rewrite Hm, Hu, Hl.
    split; [|split].
    + intros h' Hne. by rewrite lookup_delete_ne.
    + done.
    + intros [?|?]; [done|subst h; lia].
Qed.



(** *** The driver leaves the wallet alone *)

Lemma generateLoop_wallet fuel w mine startHeight nbVotes nbTickets i todo nd
    hashes w' nd' res :
  generateLoop c fuel w mine startHeight nbVotes nbTickets i todo nd hashes
  = Finished (w', nd', res) ->
  w' = w.
Proof.
  revert i nd hashes. induction todo as [|todo IH]; intros i nd hashes; simpl.
  - intros H. by simplify_eq.
  - destruct (mine nd 1) as [nd1 [err|h]]; [intros H; by simplify_eq|].
    destruct (h !! 0%nat) as [h0|]; [|done].
    match goal with |- context [if ?b then _ else _] => destruct b end.
    + apply IH.
    + destruct (waitForMempool _ _ _ _ _ _ _ _) as [|msg|[nd2 [err|]]];
        try done; [intros H; by simplify_eq|apply IH].
Qed.

(** C8. [GenerateBlocks] does not change the wallet: whenever it
    returns, with block identifiers or with an error, the wallet after
    the call is the wallet before it, so its unlocked funds, its ticket
    map, its schedule of maturing payouts, its vote limit and its tspend
    votes are the same. *)
Theorem GenerateBlocks_frame fuel w nd (nb : N) w' nd' res :
  GenerateBlocks c fuel w nd nb = Finished (w', nd', res) ->
  w' = w
  /\ utxos w' = utxos w
  /\ tickets w' = tickets w
  /\ maturingVotes w' = maturingVotes w
  /\ limitNbVotes w' = limitNbVotes w
  /\ tspendVotes w' = tspendVotes w.
Proof.
  unfold GenerateBlocks. intros H.
  assert (w' = w) as ->; [|done].
  destruct (GetBestBlock c nd) as [nd0 [err|[hash startHeight]]].
  - by simplify_eq.
  - by apply generateLoop_wallet in H.
Qed.

(** *** What the driver returns *)

(** On success the driver returns one identifier per requested block. *)
Lemma generateLoop_count fuel w mine startHeight nbVotes nbTickets i todo nd
    hashes w' nd' hs :
  generateLoop c fuel w mine startHeight nbVotes nbTickets i todo nd hashes
  = Finished (w', nd', inr hs) ->
  length hs = (length hashes + todo)%nat.
Proof.
  revert i nd hashes. induction todo as [|todo IH]; intros i nd hashes; simpl.
  - intros H. simplify_eq. lia.
  - destruct (mine nd 1) as [nd1 [err|h]]; [done|].
    destruct (h !! 0%nat) as [h0|]; [|done].
    match goal with |- context [if ?b then _ else _] => destruct b end.
    + intros H. apply IH in H. rewrite length_app in H. simpl in H. lia.
    + destruct (waitForMempool _ _ _ _ _ _ _ _) as [|msg|[nd2 [err|]]];
        try done.
      intros H. apply IH in H. rewrite length_app in H. simpl in H. lia.
Qed.

(** X25. When [GenerateBlocks] returns block identifiers, it returns as
    many as the blocks it was asked for. *)
Lemma GenerateBlocks_count fuel w nd (nb : N) w' nd' hs :
  GenerateBlocks c fuel w nd nb = Finished (w', nd', inr hs) ->
  length hs = N.to_nat nb.
Proof.
  unfold GenerateBlocks.
  destruct (GetBestBlock c nd) as [nd0 [err|[hash startHeight]]]; [done|].
  intros H. by apply generateLoop_count in H.
Qed.

(** A poll that finds at least [nbTickets] tickets and [nbVotes] votes
    ends the wait, when the vote limit is at most the tickets per block. *)
Lemma waitForMempool_met fuel nd nbVotes nbTickets needsVotes needsTickets genHeight
    nd0 nd1 nd2 mempoolTickets mempoolVotes :
  selectCase c nd = (nd0, TestTimeoutFired) ->
  GetRawMempool c nd0 GRMTickets = (nd1, mempoolTickets) ->
  GetRawMempool c nd1 GRMVotes = (nd2, mempoolVotes) ->
  nbVotes <= nbTickets ->
  nbTickets <= Z.of_nat (length mempoolTickets) ->
  nbVotes <= Z.of_nat (length mempoolVotes) ->
  waitForMempool c (S fuel) nd nbVotes nbTickets needsVotes needsTickets genHeight
  = Finished (nd2, None).
Proof.
  intros Hs Ht Hv Hle H1 H2. simpl. rewrite Hs, Ht, Hv.
  destruct (Z.geb_spec (Z.of_nat (length mempoolTickets)) nbVotes); [|lia].
  destruct (Z.geb_spec (Z.of_nat (length mempoolVotes)) nbVotes); [|lia].
  by rewrite !orb_true_r.
Qed.

(** Cancellation ends the wait with its own error. *)
Lemma waitForMempool_cancelled fuel nd nbVotes nbTickets needsVotes needsTickets
    genHeight nd0 :
  selectCase c nd = (nd0, CtxDone) ->
  waitForMempool c (S fuel) nd nbVotes nbTickets needsVotes needsTickets genHeight
  = Finished (nd0, Some "wallet is stopping").
Proof. intros Hs. simpl. by rewrite Hs. Qed.

(** The timeout names the categories whose count differs from the
    expected one, whether or not the height requires them. *)
Lemma waitForMempool_timeout fuel nd nbVotes nbTickets needsVotes needsTickets
    genHeight nd0 nd1 nd2 mempoolTickets mempoolVotes :
  selectCase c nd = (nd0, TimeoutFired) ->
  GetRawMempool c nd0 GRMTickets = (nd1, mempoolTickets) ->
  GetRawMempool c nd1 GRMVotes = (nd2, mempoolVotes) ->
  waitForMempool c (S fuel) nd nbVotes nbTickets needsVotes needsTickets genHeight
  = Finished (nd2, Some (timeoutError
                           (notGotList nbVotes nbTickets mempoolTickets mempoolVotes)
                           genHeight)).
Proof. intros Hs Ht Hv. simpl. by rewrite Hs, Ht, Hv. Qed.

End Properties.

(** ** Concrete runs *)

Section Runs.

Import Fixture.

(** C1, at a failing input. The wallet owns the tickets [[1]] and
    [[2]]; ticket [[1]] is drawn at height 20 and the node accepts the
    vote that spends it: after the handler the ticket map still holds
    [[1]], which the specification says is removed the moment it is voted. *)
Theorem voted_ticket_kept :
  exists d tx h inp,
    handleWinningTicketsNtfn lib client holding (answering [inr [11]]) (drawn 20 [[1]])
    = Returned d
    /\ (tx, inr h) ∈ sent d
    /\ txIn tx !! 1%nat = Some inp
    /\ opHash (PreviousOutPoint inp) = [1]
    /\ tickets (wallet d) !! [1] = Some (mkTicketInfo 10).
Proof.
  do 4 eexists. split; [vm_compute; reflexivity|].
  split; [apply list_elem_of_here|].
  split; [reflexivity|]. split; reflexivity.
Qed.

Lemma partial_batch_unscheduled :
  exists d,
    handleWinningTicketsNtfn lib client holding
      (answering [inr [11]; inl "boom"]) (drawn 20 [[1]; [2]]) = Returned d
    /\ acceptedCount (sent d) = 1%nat
    /\ maturingVotes (wallet d) !! maturingHeightOf holding (drawn 20 [[1]; [2]]) = None.
Proof. eexists. split; [vm_compute; reflexivity|]. split; reflexivity. Qed.

Lemma starved_purchase_keeps_entry :
  FromBytes lib (blockHeader (connected 20 60)) = inr {| Height := 20; SBits := 60 |}
  /\ maturingVotes awaiting !! 20 = Some [fund 0 11]
  /\ maturingVotes (wallet (handleBlockConnectedNtfn lib client awaiting
                             (answering []) (connected 20 60))) !! 20
     = Some [fund 0 11].
Proof. repeat split. Qed.

(** C2, counterexample. Two owned tickets are drawn; the first vote is
    accepted and the second is rejected: the accepted vote gets no entry
    at height 24. And a block at height 20, for which a payout is
    scheduled, reaches a wallet with no funds to buy tickets: the entry
    of height 20 stays in the schedule. *)
Lemma scheduled_payouts_refuted :
  ~ castVotesScheduled lib client holding
      (answering [inr [11]; inl "boom"]) (drawn 20 [[1]; [2]])
  /\ ~ releasedAtItsHeight lib client awaiting (answering []) (connected 20 60).
Proof.
  split.
  - intros H. destruct partial_batch_unscheduled as (d & Hd & Hn & Hm).
    destruct (H d Hd ltac:(lia)) as (funds & Hf & _). congruence.
  - intros H. destruct starved_purchase_keeps_entry as (Hh & He & Hk).
    specialize (H _ _ Hh He).
    change (Z.of_N (Height {| Height := 20; SBits := 60 |})) with 20 in H.
    rewrite Hk in H. discriminate H.
Qed.




Lemma rejected_purchase_records_less :
  FromBytes lib (blockHeader (connected 12 60)) = inr {| Height := 12; SBits := 60 |}
  /\ ticketPurchaseStartHeight (ActiveNet fresh) <= 12
  /\ Z.of_N (TicketsPerBlock (ActiveNet fresh)) <= Z.of_nat (length (utxos fresh))
  /\ size (tickets fresh) = 0%nat
  /\ size (tickets (wallet (handleBlockConnectedNtfn lib client fresh
                             (answering [inl "rejected"; inr [12]])
                             (connected 12 60)))) = 0%nat.
Proof. repeat split; by vm_compute. Qed.

(** C5, counterexample. A block at the purchase start height reaches a
    wallet with four funds; the node rejects the first of the two
    tickets: no ticket is recorded. *)
Lemma purchaseRecordsAll_fails :
  ~ purchaseRecordsAll lib client fresh
      (answering [inl "rejected"; inr [12]]) (connected 12 60).
Proof.
  intros H.
  destruct rejected_purchase_records_less as (Hh & Hlow & Hfew & Hb & Ha).
  specialize (H _ Hh Hlow Hfew). rewrite Hb, Ha in H. discriminate H.
Qed.

(** The example of the derived parameters: activation at 16, ticket
    maturity 2, coinbase maturity 4, five tickets per block. *)
Example derived_parameters :
  let net5 := mkParams 16 2 4 5 20000 [] in
  requiredTicketCount net5 = 40 /\ ticketPurchaseStartHeight net5 = 12.
Proof. split; reflexivity. Qed.

(** *** The theorems at concrete inputs *)

Lemma LimitNbVotes_spec_witness :
  0 <= limitNbVotes holding
  /\ exists w', LimitNbVotes holding 1 = (w', None)
       /\ limitNbVotes w' = 1
       /\ forall nd evs ntfn d,
            (EvWinningTickets ntfn, d) ∈ run lib client w' nd evs ->
            Z.of_nat (length (sent d)) <= 1.
Proof.
  assert (H0 : 0 <= limitNbVotes holding) by (simpl; lia).
  split; [exact H0|].
  apply (LimitNbVotes_spec lib client holding 1 H0). simpl. lia.
Defined.

Lemma vote_array_bounds_witness :
  limitNbVotes muted = 0
  /\ (exists wt, wt ∈ [[1]] /\ is_Some (tickets muted !! wt))
  /\ createVotes lib muted 1 [2] [[1]]
       (replicate (Z.to_nat (limitNbVotes muted)) wire.emptyTx) 0
     = BuiltPanic 0 0.
Proof.
  assert (H1 : limitNbVotes muted = 0) by reflexivity.
  assert (H2 : exists wt, wt ∈ [[1]] /\ is_Some (tickets muted !! wt)).
  { exists [1]. split; [apply list_elem_of_here|].
    exists (mkTicketInfo 10). reflexivity. }
  split; [exact H1|]. split; [exact H2|].
  apply (vote_array_bounds lib client muted 1 [2] [[1]]); [exact H1|exact H2].
Defined.

Lemma unowned_winner_ignored_witness :
  tickets holding !! [3] = None
  /\ winningTickets (drawn 20 [[1]; [3]; [2]]) = [[1]] ++ [3] :: [[2]]
  /\ handleWinningTicketsNtfn lib client holding
       (answering [inr [11]; inr [12]]) (drawn 20 [[1]; [3]; [2]])
     = handleWinningTicketsNtfn lib client holding
         (answering [inr [11]; inr [12]]) (drawn 20 [[1]; [2]]).
Proof.
  assert (H1 : tickets holding !! [3] = None) by reflexivity.
  assert (H2 : winningTickets (drawn 20 [[1]; [3]; [2]]) = [[1]] ++ [3] :: [[2]])
    by reflexivity.
  split; [exact H1|]. split; [exact H2|].
  apply (unowned_winner_ignored lib client holding
           (answering [inr [11]; inr [12]]) (drawn 20 [[1]; [3]; [2]])
           [3] [[1]] [[2]] H1 H2).
Defined.

Lemma partial_failure_no_rollback_witness :
  FromBytes lib (blockHeader (connected 12 60)) = inr {| Height := 12; SBits := 60 |}
  /\ map snd (sent (handleBlockConnectedNtfn lib client fresh
                      (answering [inr [11]; inl "boom"]) (connected 12 60)))
     = map inr [[11]] ++ inl "boom" :: []
  /\ maturingVotes (wallet (handleBlockConnectedNtfn lib client fresh
                             (answering [inr [11]; inl "boom"]) (connected 12 60)))
     = maturingVotes fresh.
Proof.
  assert (H1 : FromBytes lib (blockHeader (connected 12 60))
               = inr {| Height := 12; SBits := 60 |}) by reflexivity.
  assert (H2 : map snd (sent (handleBlockConnectedNtfn lib client fresh
                                (answering [inr [11]; inl "boom"]) (connected 12 60)))
               = map inr [[11]] ++ inl "boom" :: []) by (vm_compute; reflexivity).
  split; [exact H1|]. split; [exact H2|].
  apply (proj1 (partial_failure_no_rollback lib client fresh
                  (answering [inr [11]; inl "boom"]))
           (connected 12 60) _ [[11]] "boom" [] H1 H2).
Defined.

Lemma purchase_records_tickets_witness :
  FromBytes lib (blockHeader (connected 12 60)) = inr {| Height := 12; SBits := 60 |}
  /\ ticketPurchaseStartHeight (ActiveNet fresh) <= 12
  /\ Z.of_N (TicketsPerBlock (ActiveNet fresh)) <= Z.of_nat (length (utxos fresh))
  /\ length (drop 2 (utxos fresh)) = 2%nat
  /\ tickets (wallet (handleBlockConnectedNtfn lib client fresh
                       (answering [inr [11]; inr [12]]) (connected 12 60)))
     = insertTickets (tickets fresh) [[11]; [12]] 70.
Proof.
  assert (H1 : FromBytes lib (blockHeader (connected 12 60))
               = inr {| Height := 12; SBits := 60 |}) by reflexivity.
  assert (H2 : ticketPurchaseStartHeight (ActiveNet fresh)
               <= Z.of_N (Height {| Height := 12; SBits := 60 |}))
    by (vm_compute; discriminate).
  assert (H3 : Z.of_N (TicketsPerBlock (ActiveNet fresh))
               <= Z.of_nat (length (utxos fresh))) by (vm_compute; discriminate).
  split; [exact H1|]. split; [exact H2|]. split; [exact H3|].
  destruct (purchase_records_tickets lib client fresh
              (answering [inr [11]; inr [12]]) (connected 12 60) _ H1 H2 H3)
    as (Hk & _ & _ & Hall).
  split; [exact Hk|].
  destruct (Hall [[11]; [12]] ltac:(vm_compute; reflexivity) eq_refl)
    as (_ & _ & Ht & _).
  exact Ht.
Defined.

Lemma tickets_accounted_witness :
  tickets (walletAfter lib client fresh (answering [inr [11]; inr [12]])
             [EvBlockConnected (connected 12 60)]) !! [11]
  = Some (mkTicketInfo 70)
  /\ (tickets fresh !! [11] = Some (mkTicketInfo 70)
      \/ exists tx,
           (tx, inr [11]) ∈ purchaseLog lib client fresh
                              (answering [inr [11]; inr [12]])
                              [EvBlockConnected (connected 12 60)]
           /\ Value <$> txOut tx !! 0%nat = Some 70).
Proof.
  assert (H1 : tickets (walletAfter lib client fresh (answering [inr [11]; inr [12]])
                          [EvBlockConnected (connected 12 60)]) !! [11]
               = Some (mkTicketInfo 70)) by (vm_compute; reflexivity).
  split; [exact H1|].
  apply (proj2 (tickets_accounted lib client fresh (answering [inr [11]; inr [12]]))
           [EvBlockConnected (connected 12 60)] [11] (mkTicketInfo 70) H1).
Defined.

Lemma payouts_scheduled_and_released_witness :
  (exists d,
     handleWinningTicketsNtfn lib client holding
       (answering [inr [11]; inr [12]]) (drawn 20 [[1]; [2]]) = Returned d
     /\ logged d = []
     /\ exists hs,
          map snd (sent d) = map inr hs
          /\ length hs = length (voters holding [[1]; [2]])
          /\ maturingVotes (wallet d)
             = <[ 24 := zip_with (payout 1) hs (voters holding [[1]; [2]]) ]>
                 (maturingVotes holding)
          /\ utxos (wallet d) = utxos holding)
  /\ (exists d,
        handleWinningTicketsNtfn lib client holding
          (answering [inr [11]; inl "boom"]) (drawn 20 [[1]; [2]]) = Returned d
        /\ map snd (sent d) = [inr [11]; inl "boom"]
        /\ logged d <> []
        /\ maturingVotes (wallet d) = maturingVotes holding
        /\ wallet d = holding)
  /\ (exists d,
        handleWinningTicketsNtfn Scenario.strict client holding
          (answering [inr [11]; inr [12]]) (drawn 20 [[1]; [2]]) = Returned d
        /\ logged d <> []
        /\ sent d = []
        /\ wallet d = holding).
Proof.
  split; [|split].
  - eexists. split; [vm_compute; reflexivity|]. split; [reflexivity|].
    apply (proj1 (proj1 (payouts_scheduled_and_released lib client holding
                           (answering [inr [11]; inr [12]]))
                    (drawn 20 [[1]; [2]]) _ ltac:(vm_compute; reflexivity))
             eq_refl).
  - eexists. split; [vm_compute; reflexivity|]. split; [reflexivity|].
    destruct (proj1 (payouts_scheduled_and_released lib client holding
                       (answering [inr [11]; inl "boom"]))
                (drawn 20 [[1]; [2]]) _ ltac:(vm_compute; reflexivity))
      as (_ & Herr & Hrej).
    destruct (Hrej _ "boom" ltac:(simpl; apply list_elem_of_further, list_elem_of_here))
      as [Hlog Hm].
    split; [exact Hlog|]. split; [exact Hm|]. exact (proj1 (Herr Hlog)).
  - eexists. split; [vm_compute; reflexivity|].
    assert (Hlog : ["transaction is not a valid vote: bad vote"] <> @nil Err)
      by discriminate.
    split; [exact Hlog|]. split; [reflexivity|].
    exact (proj1 (proj1 (proj2 (proj1 (payouts_scheduled_and_released
                                         Scenario.strict client holding
                                         (answering [inr [11]; inr [12]]))
                                  (drawn 20 [[1]; [2]]) _
                                  ltac:(vm_compute; reflexivity)))
                   Hlog)).
Defined.

(** A node that returns the same identifier for both tickets of a
    purchase: one ticket is recorded, and the total is one price short
    of what distinct identifiers give. *)
Lemma repeated_identifier_records_once :
  let d := handleBlockConnectedNtfn lib client fresh
             (answering [inr [11]; inr [11]]) (connected 12 60) in
  logged d = []
  /\ map snd (sent d) = [inr [11]; inr [11]]
  /\ size (tickets (wallet d)) = 1%nat
  /\ totalFunds fresh = 320000
  /\ totalFunds (wallet d) = 160070.
Proof. repeat split. Qed.


Lemma GenerateBlocks_frame_witness :
  exists w' nd' res,
    GenerateBlocks client 10 limited polled 1 = Finished (w', nd', res)
    /\ w' = limited
    /\ utxos w' = utxos limited
    /\ tickets w' = tickets limited
    /\ maturingVotes w' = maturingVotes limited
    /\ limitNbVotes w' = limitNbVotes limited
    /\ tspendVotes w' = tspendVotes limited.
Proof.
  do 3 eexists. split; [vm_compute; reflexivity|].
  apply (GenerateBlocks_frame client 10 limited polled 1 _ _ _
           ltac:(vm_compute; reflexivity)).
Defined.

(** C6, the driver at a failing input. The vote limit is 1 and two
    tickets are bought per block; the block mined is at height 16, which
    requires votes and tickets. At the first poll the mempool holds one
    ticket and one vote: the driver takes its requirements as met and
    returns the block identifier, though the ticket count 1 has not
    reached the 2 it would report as missing on a timeout. *)
Theorem GenerateBlocks_returns_before_tickets :
  limitNbVotes limited = 1
  /\ Z.of_N (TicketsPerBlock (ActiveNet limited)) = 2
  /\ (add64 (add64 15 0) 1 >=? ticketPurchaseStartHeight (ActiveNet limited)) = true
  /\ notGotList 1 2 [[1]] [[2]] = ["tickets"]
  /\ GenerateBlocks client 10 limited polled 1
     = Finished (limited, mkScripted [] [] [] [] (inr ([0], 15)), inr [[42]]).
Proof. repeat split. Qed.

End Runs.

(** ** Further properties of the wallet's code *)

Section Further.

Context {Node : Type}.
Variable lib : Lib.
Variable c : Client Node.

Implicit Types (w : VotingWallet Node) (nd : Node) (d : Done Node).

(** *** Derived parameters *)

(** X1. [requiredTicketCount] is computed on [uint16] values: it is the
    product [(CoinbaseMaturity + TicketMaturity + 2) * TicketsPerBlock]
    modulo 65536, so the product itself only when that is below 65536. *)
Theorem requiredTicketCount_wraps (net : Params) :
  let product :=
    Z.of_N ((CoinbaseMaturity net + TicketMaturity net + 2) * TicketsPerBlock net) in
  requiredTicketCount net = product mod 65536
  /\ 0 <= requiredTicketCount net < 65536
  /\ (product < 65536 -> requiredTicketCount net = product).
Proof.
  intros product. subst product. unfold requiredTicketCount.
  change (2 ^ 16) with 65536.
  rewrite N2Z.inj_mul, Z.mul_mod_idemp_l by lia.
  split; [done|]. split.
  - apply Z.mod_pos_bound. lia.
  - intros Hlt. apply Z.mod_small. lia.
Qed.

(** X2. When the subtraction does not wrap, ticket purchases start
    before votes are needed: the purchase start height is below
    [StakeValidationHeight - 1], so every height at which the driver
    waits for votes is a height at which it waits for tickets. *)
Theorem votes_need_tickets (net : Params) (genHeight : Z) :
  inInt64 (StakeValidationHeight net) ->
  inInt64 (StakeValidationHeight net - Z.of_N (TicketMaturity net) - 2) ->
  ticketPurchaseStartHeight net
  = StakeValidationHeight net - Z.of_N (TicketMaturity net) - 2
  /\ ticketPurchaseStartHeight net < sub64 (StakeValidationHeight net) 1
  /\ ((genHeight >=? sub64 (StakeValidationHeight net) 1) = true ->
      (genHeight >=? ticketPurchaseStartHeight net) = true).
Proof.
  intros Hs Hp. unfold ticketPurchaseStartHeight, sub64.
  assert (Hm : inInt64 (StakeValidationHeight net - Z.of_N (TicketMaturity net))).
  { unfold inInt64 in *. lia. }
  assert (H1 : inInt64 (StakeValidationHeight net - 1)).
  { unfold inInt64 in *. lia. }
  rewrite (wrap64_id _ Hm), (wrap64_id _ Hp), (wrap64_id _ H1).
  split; [done|]. split; [lia|].
  intros Hv.
  destruct (Z.geb_spec genHeight (StakeValidationHeight net - 1)); [|done].
  destruct (Z.geb_spec genHeight
              (StakeValidationHeight net - Z.of_N (TicketMaturity net) - 2));
    [done|lia].
Qed.

(** *** The transactions the handlers build *)

(** X3. The data of the treasury-vote output starts with the bytes of
    ['T'] and ['V'] and, the hashes being 32 bytes long, has the length
    [2 + 32 * n + n] for which the handler reserves the slice. *)
Theorem opReturnData_length (tvs : list TreasuryVoteTuple) :
  Forall (fun v => length (tvHash v) = 32%nat) tvs ->
  take 2 (opReturnData tvs) = [84; 86]
  /\ length (opReturnData tvs) = (2 + 32 * length tvs + length tvs)%nat.
Proof.
  intros Hall. unfold opReturnData. split; [done|].
  assert (Hlen : length (flat_map (fun v => tvHash v ++ [tvVote v mod 256]) tvs)
                 = (33 * length tvs)%nat).
  { induction Hall as [|v tvs Hv _ IH]; simpl; [done|].
    rewrite !length_app, IH, Hv. simpl. lia. }
  rewrite length_app, Hlen. simpl. lia.
Qed.

(** X4. The tickets of a purchase: the handler submits nothing, or one
    ticket per selected fund, in the order of the pool. Each ticket has
    one input, spending its fund, and three outputs worth the ticket
    price, zero, and the fund less the commit amount; when that
    difference fits an [int64] the ticket pays the fee [commit amount -
    ticket price], whatever the fund is worth. *)
Theorem purchase_ticket_shape w nd ntfn header :
  FromBytes lib (blockHeader ntfn) = inr header ->
  let d := handleBlockConnectedNtfn lib c w nd ntfn in
  let keep := (length (utxos w) - N.to_nat (TicketsPerBlock (ActiveNet w)))%nat in
  let price := add64 (SBits header) (div64 (SBits header) 6) in
  let commit := mul64 (MinimumStakeDiff (ActiveNet w)) commitAmountMultiplier in
  sent d = []
  \/ Forall2
       (fun u p =>
          (exists sig, txIn p.1 = [wire.NewTxIn (outpoint u) wire.NullValueIn sig])
          /\ txOut p.1 = [newTxOut price (p2sstxVer w) (p2sstx w);
                          newTxOut 0 (commitScriptVer w) (commitScript w);
                          wire.NewTxOut (sub64 (amount u) commit) nullPay2SSTXChange]
          /\ (inInt64 (amount u - commit) -> txFee (amount u) p.1 = commit - price))
       (drop keep (utxos w)) (sent d).
Proof.
  intros Hh d keep price commit.
  destruct (handleBlockConnectedNtfn_cases lib c w nd ntfn)
    as [(_ & Hs & _)|(header' & Hh' & Hlow & Hfew)]; [by left|].
  assert (header' = header) as -> by congruence.
  destruct (handleBlockConnectedNtfn_purchase lib c w nd ntfn _ Hh Hlow Hfew)
    as [(Hs & _)|(txs & promises & Hb & Hsend & Hs & _)]; [by left|].
  right. fold d keep price commit in Hb, Hsend, Hs.
  pose proof (sendAll_results c _ _ _ _ Hsend) as Hl.
  apply buildTickets_shape in Hb. rewrite Hs. clear Hs Hsend.
  revert promises Hl. induction Hb as [|u tx us txs [Hin Hout] _ IH];
    intros [|p promises] Hl; simpl in *; try done; try by constructor.
  constructor; [|apply IH; lia]. simpl. split; [done|]. split; [done|].
  intros Hfit. unfold txFee. rewrite Hout. simpl. unfold sub64.
  rewrite wrap64_id by done. lia.
Qed.

Lemma sent_votes_built w nd ntfn d :
  handleWinningTicketsNtfn lib c w nd ntfn = Returned d ->
  sent d = []
  \/ exists brs,
       Forall2 (fun v p =>
                  buildVote lib w v.1 v.2
                    (CalcStakeVoteSubsidyV2 lib (blockHeight ntfn) true) brs
                  = inr p.1)
         (voters w (winningTickets ntfn)) (sent d).
Proof.
  intros Hd. apply handleWinningTicketsNtfn_cases in Hd
    as [(Hs & _)|(brs & batch & promises & HF & Hsend & Hs & _)]; [by left|].
  right. exists brs. simpl in HF.
  pose proof (sendAll_results c _ _ _ _ Hsend) as Hl. rewrite Hs.
  clear Hs Hsend. revert promises Hl.
  induction HF as [|v tx vs batch Hb _ IH]; intros [|p promises] Hl;
    simpl in *; try done; try by constructor.
  constructor; [done|apply IH; lia].
Qed.

(** X5. The votes of a draw: the handler submits nothing, or one vote
    per owned winner let through by the limit, in draw order, so
    [min (limit, owned winners)] votes. The second input of each vote
    spends output 0 of its ticket in the stake tree, its first input
    carries the subsidy, and its third output pays the ticket's price
    plus the subsidy. *)
Theorem votes_are_first_owned_winners w nd ntfn d :
  handleWinningTicketsNtfn lib c w nd ntfn = Returned d ->
  let sv := CalcStakeVoteSubsidyV2 lib (blockHeight ntfn) true in
  sent d = []
  \/ (length (sent d)
      = Nat.min (Z.to_nat (limitNbVotes w)) (length (owned w (winningTickets ntfn)))
      /\ Forall2
           (fun v p =>
              (exists sig,
                 txIn p.1 !! 1%nat
                 = Some (wire.NewTxIn (wire.NewOutPoint v.1 0 wire.TxTreeStake)
                           wire.NullValueIn sig))
              /\ txOut p.1 !! 2%nat
                 = Some (newTxOut (add64 (ticketPrice v.2) sv)
                           (voteRetScriptVer w) (voteRetScript w)))
           (voters w (winningTickets ntfn)) (sent d)).
Proof.
  intros Hd sv. apply sent_votes_built in Hd as [?|(brs & HF)]; [by left|].
  right. split.
  - apply Forall2_length in HF. rewrite <- HF. unfold voters.
    by rewrite length_take.
  - eapply Forall2_impl; [exact HF|].
    intros [wt t] p Hb. simpl in *. by apply buildVote_shape in Hb.
Qed.

(** *** Failures before anything is submitted *)

(** X6. The purchase handler submits all the tickets of a block or none:
    it sends either nothing or exactly [TicketsPerBlock] transactions;
    and when it sends nothing it has not called the node and has
    recorded no ticket. *)
Theorem purchase_all_or_nothing w nd ntfn :
  let d := handleBlockConnectedNtfn lib c w nd ntfn in
  (sent d = [] /\ node d = nd /\ tickets (wallet d) = tickets w)
  \/ length (sent d) = N.to_nat (TicketsPerBlock (ActiveNet w)).
Proof.
  intros d. unfold d, handleBlockConnectedNtfn.
  destruct (FromBytes lib (blockHeader ntfn)) as [err|header]; [by left|].
  destruct (Z.ltb_spec (Z.of_N (Height header))
              (ticketPurchaseStartHeight (ActiveNet w))); [by left|].
  destruct (Z.ltb_spec (Z.of_nat (length (utxos w)))
              (Z.of_N (TicketsPerBlock (ActiveNet w)))) as [|Hfew]; [by left|].
  destruct (buildTickets _ _ _ _ _) as [err|txs] eqn:Hb; [by left|].
  right. apply buildTickets_length in Hb.
  pose proof (sendAll_length c nd txs) as Hl.
  destruct (sendAll c nd txs) as [nd1 promises]. simpl in Hl.
  assert (length (zip txs promises) = N.to_nat (TicketsPerBlock (ActiveNet w))).
  { rewrite length_zip_with, Hl, Hb, length_drop. lia. }
  by destruct (recordTickets _ _ _) as [tks [err|]].
Qed.

Lemma buildTickets_unsigned w us price commit err :
  (forall tx i script key, SignatureScript_ lib tx i script key = inl err) ->
  us <> [] ->
  buildTickets lib w us price commit = inl ("failed to sign ticket tx: " +:+ err).
Proof.
  intros Hsig Hne. destruct us as [|u us]; [done|]. simpl. by rewrite Hsig.
Qed.

(** X7. When no ticket can be signed, the funds selected for the block
    are dropped from the pool all the same: past the checks of the
    height and of the funds, with at least one ticket to buy, the
    handler removes the last [TicketsPerBlock] funds, reports the
    signing error, submits nothing and records nothing. *)
Theorem sign_failure_consumes_funds w nd ntfn header err :
  FromBytes lib (blockHeader ntfn) = inr header ->
  ticketPurchaseStartHeight (ActiveNet w) <= Z.of_N (Height header) ->
  Z.of_N (TicketsPerBlock (ActiveNet w)) <= Z.of_nat (length (utxos w)) ->
  (0 < TicketsPerBlock (ActiveNet w))%N ->
  (forall tx i script key, SignatureScript_ lib tx i script key = inl err) ->
  let k := N.to_nat (TicketsPerBlock (ActiveNet w)) in
  handleBlockConnectedNtfn lib c w nd ntfn
  = {| wallet := set_utxos w (take (length (utxos w) - k) (utxos w));
       node := nd;
       logged := ["failed to sign ticket tx: " +:+ err];
       sent := [] |}.
Proof.
  intros Hh Hlow Hfew Hk Hsig k. unfold handleBlockConnectedNtfn. rewrite Hh.
  destruct (Z.ltb_spec (Z.of_N (Height header))
              (ticketPurchaseStartHeight (ActiveNet w))); [lia|].
  destruct (Z.ltb_spec (Z.of_nat (length (utxos w)))
              (Z.of_N (TicketsPerBlock (ActiveNet w)))); [lia|].
  rewrite to_nat_of_N. fold k.
  rewrite (buildTickets_unsigned _ _ _ _ err); [done|done|].
  intros Hnil. apply (f_equal length) in Hnil.
  rewrite length_drop in Hnil. simpl in Hnil. subst k. lia.
Qed.

(** X8. A draw in which the wallet owns no winner, the empty draw
    included, submits nothing and reports nothing, yet stores an empty
    batch at the maturing height: payouts already scheduled at that
    height are dropped from the schedule. *)
Theorem draw_without_owned_winner w nd ntfn blockRefScript :
  GenerateSSGenBlockRef lib (blockHash ntfn) (toUint32 (blockHeight ntfn))
  = inr blockRefScript ->
  0 <= limitNbVotes w ->
  (forall wt, wt ∈ winningTickets ntfn -> tickets w !! wt = None) ->
  handleWinningTicketsNtfn lib c w nd ntfn
  = Returned {| wallet := set_maturingVotes w
                            (<[ maturingHeightOf w ntfn := [] ]> (maturingVotes w));
                node := nd; logged := []; sent := [] |}
  /\ forall d, handleWinningTicketsNtfn lib c w nd ntfn = Returned d ->
       maturingVotes (wallet d) !! maturingHeightOf w ntfn = Some [].
Proof.
  intros Hb HL Hnone.
  assert (Heq : handleWinningTicketsNtfn lib c w nd ntfn
                = Returned {| wallet := set_maturingVotes w
                                (<[ maturingHeightOf w ntfn := [] ]> (maturingVotes w));
                              node := nd; logged := []; sent := [] |}).
  { unfold handleWinningTicketsNtfn. rewrite Hb.
    destruct (Z.ltb_spec (limitNbVotes w) 0); [lia|].
    rewrite createVotes_none_owned by by apply owned_nil_of_none.
    by rewrite take_0. }
  split; [done|]. intros d Hd. rewrite Heq in Hd. simplify_eq. simpl.
  apply lookup_insert_eq.
Qed.

Lemma createVotes_error w sv brs wts votes nb v e :
  Z.of_nat nb < limitNbVotes w ->
  length votes = Z.to_nat (limitNbVotes w) ->
  v ∈ take (Z.to_nat (limitNbVotes w) - nb) (owned w wts) ->
  buildVote lib w v.1 v.2 sv brs = inl e ->
  exists err, createVotes lib w sv brs wts votes nb = BuiltError err.
Proof.
  revert votes nb. induction wts as [|wt rest IH]; intros votes nb Hn Hl Hin Hv.
  - unfold owned in Hin. simpl in Hin. rewrite take_nil in Hin.
    by apply elem_of_nil in Hin.
  - simpl. unfold owned in Hin. simpl in Hin. fold (owned w rest) in Hin.
    destruct (tickets w !! wt) as [t|]; simpl in Hin; [|by eapply IH].
    destruct (votes !! nb) as [old|] eqn:Hold.
    2:{ apply lookup_ge_None in Hold. lia. }
    replace (Z.to_nat (limitNbVotes w) - nb)%nat
      with (S (Z.to_nat (limitNbVotes w) - S nb))%nat in Hin by lia.
    simpl in Hin. apply elem_of_cons in Hin as [->|Hin].
    + simpl in Hv. rewrite Hv. by eexists.
    + destruct (buildVote lib w wt t sv brs) as [err|vote]; [by eexists|].
      destruct (Z.geb_spec (Z.of_nat (S nb)) (limitNbVotes w)) as [Hge|Hlt].
      * replace (Z.to_nat (limitNbVotes w) - S nb)%nat with 0%nat in Hin by lia.
        rewrite take_0 in Hin. by apply elem_of_nil in Hin.
      * eapply IH; [lia|by rewrite length_insert|done|done].
Qed.

(** X9. The votes of a draw are submitted only once all of them are
    built: when the vote of any owned winner the limit lets through
    cannot be built (its treasury script, its signature or its check
    fails), the handler submits no vote at all, also not those built
    before it, and leaves the wallet and the node as they were. *)
Theorem vote_build_failure_submits_nothing w nd ntfn blockRefScript v e :
  GenerateSSGenBlockRef lib (blockHash ntfn) (toUint32 (blockHeight ntfn))
  = inr blockRefScript ->
  v ∈ voters w (winningTickets ntfn) ->
  buildVote lib w v.1 v.2 (CalcStakeVoteSubsidyV2 lib (blockHeight ntfn) true)
    blockRefScript = inl e ->
  exists err,
    handleWinningTicketsNtfn lib c w nd ntfn
    = Returned {| wallet := w; node := nd; logged := [err]; sent := [] |}.
Proof.
  intros Hb Hin Hv. unfold handleWinningTicketsNtfn. rewrite Hb.
  unfold voters in Hin.
  destruct (Z.ltb_spec (limitNbVotes w) 0) as [Hneg|Hpos].
  { replace (Z.to_nat (limitNbVotes w)) with 0%nat in Hin by lia.
    rewrite take_0 in Hin. by apply elem_of_nil in Hin. }
  assert (0 < limitNbVotes w) as HL.
  { destruct (decide (limitNbVotes w = 0)) as [H0|]; [|lia].
    rewrite H0 in Hin. simpl in Hin. rewrite take_0 in Hin.
    by apply elem_of_nil in Hin. }
  destruct (createVotes_error w
              (CalcStakeVoteSubsidyV2 lib (blockHeight ntfn) true)
              blockRefScript (winningTickets ntfn)
              (replicate (Z.to_nat (limitNbVotes w)) wire.emptyTx) 0 v e)
    as [err Herr]; try done.
  - by rewrite length_replicate.
  - by rewrite Nat.sub_0_r.
  - rewrite Herr. by exists err.
Qed.

(** *** Along a run of the event loop *)

Lemma step_config w nd ev d :
  step lib c w nd ev = Returned d -> config (wallet d) = config w.
Proof.
  destruct ev as [ntfn|ntfn|n|vs]; simpl; intros H.
  - simplify_eq. unfold handleBlockConnectedNtfn, releaseMatured.
    repeat case_match; reflexivity.
  - unfold handleWinningTicketsNtfn in H.
    repeat case_match; simplify_eq; reflexivity.
  - unfold LimitNbVotes in H. repeat case_match; simplify_eq; reflexivity.
  - by simplify_eq.
Qed.

Lemma walletAfter_limit evs w nd :
  limitNbVotes (walletAfter lib c w nd evs) <= limitNbVotes w.
Proof.
  revert w nd. induction evs as [|ev evs IH]; intros w nd; simpl; [lia|].
  destruct (step lib c w nd ev) as [msg|d] eqn:Hs; [lia|].
  apply step_limit in Hs. specialize (IH (wallet d) (node d)). lia.
Qed.

(** X10. The vote limit never goes up: handling more events can only
    leave it where it is or lower it, so a call of [LimitNbVotes] with a
    value above the limit the wallet once had fails whatever was handled
    since. *)
Theorem limit_never_increases w nd (evs more : list Event) (newLimit : Z) :
  limitNbVotes (walletAfter lib c w nd (evs ++ more))
  <= limitNbVotes (walletAfter lib c w nd evs)
  /\ limitNbVotes (walletAfter lib c w nd evs) <= limitNbVotes w
  /\ (limitNbVotes w < newLimit ->
      exists err,
        LimitNbVotes (walletAfter lib c w nd evs) newLimit
        = (walletAfter lib c w nd evs, Some err)).
Proof.
  split; [|split].
  - revert w nd. induction evs as [|ev evs IH]; intros w nd; simpl.
    + apply walletAfter_limit.
    + destruct (step lib c w nd ev) as [msg|d]; [lia|]. apply IH.
  - apply walletAfter_limit.
  - intros Hlt. pose proof (walletAfter_limit evs w nd) as Hle.
    unfold LimitNbVotes.
    destruct (Z.ltb_spec newLimit 0); [by eexists|].
    destruct (Z.gtb_spec newLimit (limitNbVotes (walletAfter lib c w nd evs)));
      [by eexists|lia].
Qed.

(** X11. No notification and no call of [LimitNbVotes] or
    [VoteForTSpends] changes the network parameters, the private key,
    the scripts or the miner of the wallet. *)
Theorem run_keeps_config w nd (evs : list Event) :
  config (walletAfter lib c w nd evs) = config w.
Proof.
  revert w nd. induction evs as [|ev evs IH]; intros w nd; simpl; [done|].
  destruct (step lib c w nd ev) as [msg|d] eqn:Hs; [done|].
  rewrite IH. by eapply step_config.
Qed.

Lemma handleWinningTicketsNtfn_no_panic w nd ntfn msg :
  1 <= limitNbVotes w ->
  handleWinningTicketsNtfn lib c w nd ntfn <> Panic msg.
Proof.
  intros HL. unfold handleWinningTicketsNtfn.
  destruct (GenerateSSGenBlockRef _ _ _) as [err|brs]; [done|].
  destruct (Z.ltb_spec (limitNbVotes w) 0); [lia|].
  destruct (createVotes _ _ _ _ _ _ _) as [i n|err|votes nb] eqn:Hc.
  - exfalso. revert Hc. apply createVotes_in_bounds;
      [by rewrite length_replicate|lia].
  - done.
  - assert (H0 : 0 <= limitNbVotes w) by lia.
    pose proof (createVotes_batch lib _ _ _ _ _ _ H0 Hc) as HF.
    pose proof (sendAll_length c nd (take nb votes)) as Hs.
    destruct (sendAll c nd (take nb votes)) as [nd1 promises]. simpl in Hs.
    pose proof (collectPayouts_spec lib _ _ _ _ _ promises HF Hs) as Hcp.
    by destruct (collectPayouts promises (take nb votes)).
Qed.

(** X12. No slice access of the handlers is out of bounds as long as the
    vote limit is at least one: from a wallet with a limit of one or
    more, and with no call of [LimitNbVotes(0)] among the events, the
    event loop handles every event without a panic, and the limit stays
    at least one. *)
Theorem event_loop_never_panics w nd (evs : list Event) :
  1 <= limitNbVotes w ->
  Forall (fun ev => ev <> EvLimitNbVotes 0) evs ->
  map fst (run lib c w nd evs) = evs
  /\ 1 <= limitNbVotes (walletAfter lib c w nd evs).
Proof.
  intros HL Hall. revert w nd HL.
  induction Hall as [|ev evs Hev _ IH]; intros w nd HL; simpl; [done|].
  assert (Hstep : exists d, step lib c w nd ev = Returned d
                            /\ 1 <= limitNbVotes (wallet d)).
  { destruct ev as [ntfn|ntfn|n|vs]; simpl.
    - eexists. split; [done|]. by rewrite handleBlockConnectedNtfn_limit.
    - destruct (handleWinningTicketsNtfn lib c w nd ntfn) as [msg|d] eqn:Hd.
      + by apply handleWinningTicketsNtfn_no_panic in Hd.
      + exists d. split; [done|].
        apply handleWinningTicketsNtfn_limit in Hd. lia.
    - unfold LimitNbVotes.
      destruct (Z.ltb_spec n 0); [by eexists|].
      destruct (Z.gtb_spec n (limitNbVotes w)); [by eexists|].
      eexists. split; [done|]. simpl.
      destruct (decide (n = 0)) as [->|]; [done|lia].
    - by eexists. }
  destruct Hstep as (d & -> & Hd). simpl.
  destruct (IH (wallet d) (node d) Hd) as [-> ?]. done.
Qed.

Lemma step_pool w nd ev d :
  step lib c w nd ev = Returned d ->
  match ev with
  | EvBlockConnected _ =>
      (length (utxos w) <= length (utxos (wallet d))
                           + N.to_nat (TicketsPerBlock (ActiveNet w)))%nat
  | _ => utxos (wallet d) = utxos w
  end.
Proof.
  destruct ev as [ntfn|ntfn|n|vs]; simpl; intros H.
  - simplify_eq.
    destruct (handleBlockConnectedNtfn_cases lib c w nd ntfn)
      as [(-> & _)|(header & Hh & Hlow & Hfew)]; [lia|].
    destruct (handleBlockConnectedNtfn_purchase lib c w nd ntfn _ Hh Hlow Hfew)
      as [(_ & _ & -> & _)|(txs & promises & _ & _ & _ & Hc)].
    { simpl. rewrite length_take. lia. }
    destruct Hc as [(hs & err & rest & _ & -> & _)|(hs & _ & -> & _)].
    { simpl. rewrite length_take. lia. }
    match goal with |- context [releaseMatured ?x ?h] =>
      destruct (releaseMatured_fields x h) as (_ & -> & _) end.
    simpl. rewrite length_app, length_take. lia.
  - unfold handleWinningTicketsNtfn in H.
    repeat case_match; simplify_eq; reflexivity.
  - unfold LimitNbVotes in H. repeat case_match; simplify_eq; reflexivity.
  - by simplify_eq.
Qed.

(** Each block-connected notification takes at most [TicketsPerBlock]
    funds from the pool, and nothing else takes any. *)
Lemma walletAfter_pool evs w nd :
  (length (utxos w)
   <= length (utxos (walletAfter lib c w nd evs))
      + blocksIn evs * N.to_nat (TicketsPerBlock (ActiveNet w)))%nat.
Proof.
  revert w nd. induction evs as [|ev evs IH]; intros w nd; simpl; [lia|].
  destruct (step lib c w nd ev) as [msg|d] eqn:Hs.
  { destruct ev; lia. }
  pose proof (step_config _ _ _ _ Hs) as Hc.
  assert (ActiveNet (wallet d) = ActiveNet w) as Hnet.
  { unfold config in Hc. by simplify_eq. }
  specialize (IH (wallet d) (node d)). rewrite Hnet in IH.
  apply step_pool in Hs. destruct ev; simpl; try rewrite Hs in IH; lia.
Qed.

(** *** Where the funds come from *)

Lemma holds_take w (n : nat) u : u ∈ take n (utxos w) -> holds w u.
Proof.
  intros H. left. apply elem_of_take in H as (i & Hi & _).
  by eapply list_elem_of_lookup_2.
Qed.

Lemma step_holds w nd ev d u :
  step lib c w nd ev = Returned d ->
  holds (wallet d) u ->
  holds w u
  \/ exists ntfn tx,
       ev = EvWinningTickets ntfn
       /\ (tx, inr (opHash (outpoint u))) ∈ sent d
       /\ opIndex (outpoint u) = 2
       /\ opTree (outpoint u) = wire.TxTreeStake
       /\ Value <$> txOut tx !! 2%nat = Some (amount u).
Proof.
  destruct ev as [ntfn|ntfn|n|vs]; simpl; intros Hstep Hu.
  - left. simplify_eq.
    destruct (handleBlockConnectedNtfn_cases lib c w nd ntfn)
      as [(Hw & _)|(header & Hh & Hlow & Hfew)]; [by rewrite Hw in Hu|].
    destruct (handleBlockConnectedNtfn_purchase lib c w nd ntfn _ Hh Hlow Hfew)
      as [(_ & _ & Hw & _)|(txs & promises & _ & _ & _ & Hc)].
    { rewrite Hw in Hu. destruct Hu as [Hu|Hu]; simpl in Hu.
      - by eapply holds_take.
      - by right. }
    destruct Hc as [(hs & err & rest & _ & Hw & _)|(hs & _ & Hw & _)].
    { rewrite Hw in Hu. destruct Hu as [Hu|Hu]; simpl in Hu.
      - by eapply holds_take.
      - by right. }
    rewrite Hw in Hu.
    match type of Hu with holds (releaseMatured ?x ?h) _ =>
      destruct (releaseMatured_fields x h) as (Hm & Hp & _) end.
    destruct Hu as [Hu|(h' & us & Hl & Hin)].
    + rewrite Hp in Hu. simpl in Hu. apply elem_of_app in Hu as [Hu|Hu].
      * by eapply holds_take.
      * destruct (maturingVotes w !! Z.of_N (Height header)) as [mv|] eqn:Hmv;
          simpl in Hu; [|by apply elem_of_nil in Hu].
        right. by exists (Z.of_N (Height header)), mv.
    + rewrite Hm in Hl. simpl in Hl. apply lookup_delete_Some in Hl as [_ Hl].
      right. by exists h', us.
  - apply handleWinningTicketsNtfn_cases in Hstep
      as [(_ & Hw & _)|(brs & batch & promises & HF & Hsend & Hs & Hc)].
    { left. by rewrite Hw in Hu. }
    simpl in HF, Hc.
    destruct Hc as [(hs & e & rest & _ & Hw & _)|(hs & Hp & Hw & _)].
    { left. by rewrite Hw in Hu. }
    rewrite Hw in Hu. destruct Hu as [Hu|(h' & us & Hl & Hin)]; simpl in *.
    { left. by left. }
    destruct (decide (maturingHeightOf w ntfn = h')) as [<-|Hne].
    2:{ rewrite lookup_insert_ne in Hl by done. left. right. by exists h', us. }
    rewrite lookup_insert_eq in Hl. injection Hl as <-.
    apply elem_of_lookup_zip_with in Hin as (i & h & v & -> & Hh & Hv).
    destruct (Forall2_lookup_l _ _ _ _ _ HF Hv) as (tx & Htx & Hb).
    apply buildVote_shape in Hb as [_ Hout].
    right. exists ntfn, tx. split; [done|]. simpl. split.
    + rewrite Hs, Hp. apply elem_of_lookup_zip_with.
      exists i, tx, (inr h). split; [done|]. split; [done|].
      by rewrite list_lookup_fmap, Hh.
    + by rewrite Hout.
  - left. unfold LimitNbVotes in Hstep. repeat case_match; by simplify_eq.
  - left. by simplify_eq.
Qed.

(** X13. Every fund in the pool or in the schedule of the wallet after a
    run was held by the wallet before the run or is the payout of a vote
    the node accepted during the run: output 2, in the stake tree, of
    the transaction accepted under the fund's hash, and worth what the
    fund is recorded for. *)
Theorem funds_accounted w nd (evs : list Event) u :
  holds (walletAfter lib c w nd evs) u ->
  holds w u
  \/ exists tx,
       (tx, inr (opHash (outpoint u))) ∈ voteLog lib c w nd evs
       /\ opIndex (outpoint u) = 2
       /\ opTree (outpoint u) = wire.TxTreeStake
       /\ Value <$> txOut tx !! 2%nat = Some (amount u).
Proof.
  revert w nd. induction evs as [|ev evs IH]; intros w nd; simpl; [by left|].
  unfold voteLog. simpl.
  destruct (step lib c w nd ev) as [msg|d] eqn:Hstep; [by left|].
  intros Hu. apply IH in Hu as [Hu|(tx & Hin & Hrest)].
  - apply (step_holds _ _ _ _ _ Hstep) in Hu
      as [?|(ntfn & tx & -> & Hin & Hrest)]; [by left|].
    right. exists tx. split; [|done]. simpl. apply elem_of_app. by left.
  - right. exists tx. split; [|done]. simpl. apply elem_of_app. by right.
Qed.

End Further.

Section Starting.

Context {Node : Type}.
Variable lib : Lib.
Variable c : Client Node.
Variable env : Setup Node.

Implicit Types (w : VotingWallet Node) (nd : Node).

(** *** Connecting *)

Lemma connect_spec (i todo : nat) nd :
  let r := connect env i todo nd in
  (length r.2 <= todo)%nat
  /\ r.2 = map (fun j => Z.of_nat j * 50) (seq i (length r.2))
  /\ (r.1.2 = false <-> length r.2 = todo).
Proof.
  revert i nd. induction todo as [|todo IH]; intros i nd; simpl; [done|].
  destruct (rpcNew env nd) as [nd1 [err|made]]; simpl.
  - specialize (IH (S i) nd1).
    destruct (connect env (S i) todo nd1) as [[nd2 ok] slept]. simpl in *.
    destruct IH as (Hl & Hs & Hok). split; [lia|]. split; [by f_equal|].
    rewrite Hok. lia.
  - split; [lia|]. split; [done|]. split; done.
Qed.

(** X14. The constructor tries to connect at most 20 times and sleeps
    after each failed attempt, [50 ms] times the number of attempts
    failed before it: not at all after the first, [50 ms] after the
    second, and so on. After 20 failed attempts, 9.5 seconds of sleep in
    all, it gives the error "unable to connect to miner node". *)
Theorem NewVotingWallet_connects (net : Params) nd :
  let r := NewVotingWallet env net nd in
  (length r.1.2 <= 20)%nat
  /\ r.1.2 = map (fun j => Z.of_nat j * 50) (seq 0 (length r.1.2))
  /\ (length r.1.2 = 20%nat ->
      r.2 = inl "unable to connect to miner node"
      /\ foldr Z.add 0 r.1.2 = 9500).
Proof.
  assert (Hearly : forall (n0 : Node) (e : Err + VotingWallet Node),
             (length (n0, @nil Z, e).1.2 <= 20)%nat
             /\ (n0, @nil Z, e).1.2
                = map (fun j => Z.of_nat j * 50) (seq 0 (length (n0, @nil Z, e).1.2))
             /\ (length (n0, @nil Z, e).1.2 = 20%nat ->
                 (n0, @nil Z, e).2 = inl "unable to connect to miner node"
                 /\ foldr Z.add 0 (n0, @nil Z, e).1.2 = 9500)).
  { intros n0 e. simpl. split; [lia|]. split; [done|]. intros H. discriminate H. }
  unfold NewVotingWallet.
  destruct (addressOfKey env hardcodedPrivateKey net) as [err|addr];
    [apply Hearly|].
  destruct (VotingRightsScript addr) as [v1 s1].
  destruct (PaymentScript addr) as [v2 s2].
  destruct (RewardCommitmentScript addr _ _ _) as [v3 s3].
  destruct (GenerateSSGenVotes env 1) as [err|vs]; [apply Hearly|].
  destruct (PayVoteCommitmentScript addr) as [v4 s4].
  pose proof (connect_spec 0 20 nd) as Hc.
  destruct (connect env 0 20 nd) as [[nd1 ok] slept]. simpl in Hc.
  destruct Hc as (Hl & Hs & Hok).
  assert (Hgoal : (length slept <= 20)%nat
                  /\ slept = map (fun j => Z.of_nat j * 50) (seq 0 (length slept))
                  /\ (length slept = 20%nat -> ok = false
                      /\ foldr Z.add 0 slept = 9500)).
  { split; [done|]. split; [done|]. intros H20. split; [by apply Hok|].
    rewrite Hs, H20. reflexivity. }
  destruct Hgoal as (G1 & G2 & G3).
  destruct ok; simpl.
  - destruct (NotifyBlocks env nd1) as [nd2 [err|]]; simpl.
    { split; [done|]. split; [done|]. intros H20. by destruct (G3 H20). }
    destruct (NotifyWinningTickets env nd2) as [nd3 [err|]]; simpl.
    all: split; [done|]; split; [done|]; intros H20; by destruct (G3 H20).
  - split; [done|]. split; [done|]. intros H20. split; [done|]. by apply G3.
Qed.

Lemma NewVotingWallet_made (net : Params) nd nd1 slept w :
  NewVotingWallet env net nd = (nd1, slept, inr w) ->
  ActiveNet w = net /\ privateKey w = hardcodedPrivateKey
  /\ utxos w = [] /\ tickets w = ∅ /\ maturingVotes w = ∅
  /\ tspendVotes w = [] /\ miner w = None
  /\ limitNbVotes w = Z.of_N (TicketsPerBlock net).
Proof.
  unfold NewVotingWallet.
  destruct (addressOfKey env hardcodedPrivateKey net) as [err|addr]; [done|].
  destruct (VotingRightsScript addr) as [v1 s1].
  destruct (PaymentScript addr) as [v2 s2].
  destruct (RewardCommitmentScript addr _ _ _) as [v3 s3].
  destruct (GenerateSSGenVotes env 1) as [err|vs]; [done|].
  destruct (PayVoteCommitmentScript addr) as [v4 s4].
  destruct (connect env 0 20 nd) as [[nd0 ok] sl].
  destruct ok; simpl; [|done].
  destruct (NotifyBlocks env nd0) as [nd2 [err|]]; [done|].
  destruct (NotifyWinningTickets env nd2) as [nd3 [err|]]; [done|].
  intros H. by simplify_eq.
Qed.

(** *** Funding *)

Lemma Start_success w nd w' nd' :
  Start env w nd = (w', nd', None) ->
  exists txid,
    w' = set_utxos w
           (map (fun i => {| outpoint := {| opHash := txid; opIndex := Z.of_nat i;
                                            opTree := wire.TxTreeRegular |};
                             amount := mul64 (MinimumStakeDiff (ActiveNet w))
                                         commitAmountMultiplier |})
                (seq 0 (Z.to_nat (requiredTicketCount (ActiveNet w))))).
Proof.
  unfold Start. destruct (SendOutputs env nd _ feeRate) as [nd1 [err|txid]];
    intros H; simplify_eq. by exists txid.
Qed.

(** X15. [Start] asks the harness for one transaction with
    [requiredTicketCount] outputs, each paying [MinimumStakeDiff * 4] to
    the wallet's payment script, at the fee rate 10000, and leaves the
    node as that request leaves it. When the request gives the
    transaction [txid], [Start] returns no error and the pool becomes
    one fund per requested output, in the order of the outputs: the
    fund at position [i] is output [i] of [txid] in the regular tree and
    is worth the value of the requested output [i]; the funds spend
    pairwise different outputs, and tickets, schedule, limit and
    configuration stay. When the request fails with [e], the wallet is
    unchanged and the error is "unable to fund voting wallet: " followed
    by [e]. *)
Theorem Start_funds w nd :
  let value := mul64 (MinimumStakeDiff (ActiveNet w)) commitAmountMultiplier in
  let n := Z.to_nat (requiredTicketCount (ActiveNet w)) in
  let outputs := replicate n (wire.NewTxOut value (p2pkh w)) in
  let request := SendOutputs env nd outputs feeRate in
  let r := Start env w nd in
  feeRate = 10000
  /\ length outputs = n
  /\ r.1.2 = request.1
  /\ match request.2 with
     | inr txid =>
         r.2 = None
         /\ length (utxos r.1.1) = n
         /\ (forall (i : nat) u, utxos r.1.1 !! i = Some u ->
               outpoint u = wire.NewOutPoint txid (Z.of_nat i) wire.TxTreeRegular
               /\ Some (amount u) = Value <$> outputs !! i
               /\ amount u = value)
         /\ NoDup (map outpoint (utxos r.1.1))
         /\ tickets r.1.1 = tickets w
         /\ maturingVotes r.1.1 = maturingVotes w
         /\ limitNbVotes r.1.1 = limitNbVotes w
         /\ config r.1.1 = config w
     | inl e =>
         r.2 = Some ("unable to fund voting wallet: " +:+ e) /\ r.1.1 = w
     end.
Proof.
  intros value n outputs request r.
  split; [done|]. split; [by apply length_replicate|].
  subst r request. unfold Start. fold value n outputs.
  destruct (SendOutputs env nd outputs feeRate) as [nd1 [err|txid]]; simpl;
    [done|].
  split; [done|]. split; [done|].
  split; [by rewrite length_map, length_seq|].
  split.
  { intros i u Hu. rewrite list_lookup_fmap in Hu.
    destruct (seq 0 n !! i) as [j|] eqn:Hj; simpl in Hu; [|done].
    apply lookup_seq in Hj as [-> Hi]. simplify_eq. simpl.
    split; [done|]. split; [|done].
    subst outputs. by rewrite lookup_replicate_2. }
  split; [|done].
  rewrite <- list_fmap_compose. apply NoDup_fmap_2; [|apply NoDup_seq].
  intros i j Hij. simpl in Hij. injection Hij as Hij. lia.
Qed.

(** X16. The funds of [Start] last for the purchases of
    [CoinbaseMaturity + TicketMaturity + 2] blocks even if no payout
    ever matures: when the count of outputs does not wrap, then after
    fewer block-connected notifications than that, among any other
    events, the pool still holds the [TicketsPerBlock] funds the next
    purchase needs. *)
Theorem initial_funds_suffice w nd w' nd' nd2 (evs : list Event) :
  Start env w nd = (w', nd', None) ->
  Z.of_N ((CoinbaseMaturity (ActiveNet w) + TicketMaturity (ActiveNet w) + 2)
          * TicketsPerBlock (ActiveNet w)) < 65536 ->
  (blocksIn evs
   < N.to_nat (CoinbaseMaturity (ActiveNet w) + TicketMaturity (ActiveNet w) + 2))%nat ->
  Z.of_N (TicketsPerBlock (ActiveNet w))
  <= Z.of_nat (length (utxos (walletAfter lib c w' nd2 evs))).
Proof.
  intros Hstart Hfit Hblocks.
  apply Start_success in Hstart as [txid ->].
  pose proof (walletAfter_pool lib c evs
                (set_utxos w
                   (map (fun i => {| outpoint := {| opHash := txid;
                                                    opIndex := Z.of_nat i;
                                                    opTree := wire.TxTreeRegular |};
                                     amount := mul64 (MinimumStakeDiff (ActiveNet w))
                                                 commitAmountMultiplier |})
                      (seq 0 (Z.to_nat (requiredTicketCount (ActiveNet w))))))
                nd2) as Hpool.
  simpl in Hpool. rewrite length_map, length_seq in Hpool.
  assert (Hn : requiredTicketCount (ActiveNet w)
               = Z.of_N ((CoinbaseMaturity (ActiveNet w)
                          + TicketMaturity (ActiveNet w) + 2)
                         * TicketsPerBlock (ActiveNet w))).
  { unfold requiredTicketCount. change (2 ^ 16) with 65536.
    rewrite N2Z.inj_mul, Z.mul_mod_idemp_l by lia.
    apply Z.mod_small. lia. }
  rewrite Hn, to_nat_of_N, N2Nat.inj_mul in Hpool |- *.
  assert (Hmul : (S (blocksIn evs) * N.to_nat (TicketsPerBlock (ActiveNet w))
                  <= N.to_nat (CoinbaseMaturity (ActiveNet w)
                               + TicketMaturity (ActiveNet w) + 2)
                     * N.to_nat (TicketsPerBlock (ActiveNet w)))%nat).
  { apply Nat.mul_le_mono_r. lia. }
  simpl in Hmul. lia.
Qed.

(** X17. A wallet made by [NewVotingWallet] starts with no funds, no
    tickets, an empty schedule, no tspend votes, no miner and the vote
    limit [TicketsPerBlock]; once started, whatever it handles, it never
    submits more than [TicketsPerBlock] votes for a draw. *)
Theorem made_wallet_votes_within_limit (net : Params) nd nd1 slept w :
  NewVotingWallet env net nd = (nd1, slept, inr w) ->
  utxos w = [] /\ tickets w = ∅ /\ maturingVotes w = ∅
  /\ tspendVotes w = [] /\ miner w = None
  /\ limitNbVotes w = Z.of_N (TicketsPerBlock net)
  /\ forall nd2 w' nd3 nd4 evs ntfn d,
       Start env w nd2 = (w', nd3, None) ->
       (EvWinningTickets ntfn, d) ∈ run lib c w' nd4 evs ->
       Z.of_nat (length (sent d)) <= Z.of_N (TicketsPerBlock net).
Proof.
  intros Hmade.
  apply NewVotingWallet_made in Hmade as (_ & _ & Hu & Ht & Hm & Hts & Hmi & Hl).
  do 6 (split; [done|]).
  intros nd2 w' nd3 nd4 evs ntfn d Hstart Hin.
  apply Start_success in Hstart as [txid ->].
  apply run_elem_limit in Hin as (w1 & nd5 & Hstep & Hle).
  simpl in Hstep, Hle. apply handleWinningTicketsNtfn_batch in Hstep. lia.
Qed.

End Starting.

Section Driving.

Context {Node : Type}.
Variable lib : Lib.

Implicit Types (w : VotingWallet Node) (nd : Node).

Lemma generateLoop_below_start (c : Client Node) fuel w mine startHeight
    nbVotes nbTickets (i : Z) (todo : nat) nd hashes :
  inInt64 startHeight ->
  inInt64 (StakeValidationHeight (ActiveNet w)) ->
  inInt64 (StakeValidationHeight (ActiveNet w)
           - Z.of_N (TicketMaturity (ActiveNet w)) - 2) ->
  0 <= i ->
  startHeight + i + Z.of_nat todo
  < StakeValidationHeight (ActiveNet w) - Z.of_N (TicketMaturity (ActiveNet w)) - 2 ->
  generateLoop c fuel w mine startHeight nbVotes nbTickets i todo nd hashes
  = generateLoop c 0 w mine startHeight nbVotes nbTickets i todo nd hashes.
Proof.
  intros Hs Hv Hp. revert i nd hashes.
  induction todo as [|todo IH]; intros i nd hashes Hi Hlt; simpl; [done|].
  destruct (mine nd 1) as [nd1 [err|h]]; [done|].
  destruct (h !! 0%nat) as [h0|]; [|done].
  assert (Hg : add64 (add64 startHeight i) 1 = startHeight + i + 1).
  { unfold add64, inInt64 in *. rewrite (wrap64_id (startHeight + i)).
    - apply wrap64_id. unfold inInt64. lia.
    - unfold inInt64. lia. }
  assert (Ht : ticketPurchaseStartHeight (ActiveNet w)
               = StakeValidationHeight (ActiveNet w)
                 - Z.of_N (TicketMaturity (ActiveNet w)) - 2).
  { unfold ticketPurchaseStartHeight, sub64, inInt64 in *.
    rewrite (wrap64_id (StakeValidationHeight (ActiveNet w)
                        - Z.of_N (TicketMaturity (ActiveNet w)))).
    - by apply wrap64_id.
    - unfold inInt64. lia. }
  assert (Hv1 : sub64 (StakeValidationHeight (ActiveNet w)) 1
                = StakeValidationHeight (ActiveNet w) - 1).
  { unfold sub64. apply wrap64_id. unfold inInt64 in *. lia. }
  rewrite Hg, Ht, Hv1.
  destruct (Z.geb_spec (startHeight + i + 1)
              (StakeValidationHeight (ActiveNet w) - 1)); [lia|].
  destruct (Z.geb_spec (startHeight + i + 1)
              (StakeValidationHeight (ActiveNet w)
               - Z.of_N (TicketMaturity (ActiveNet w)) - 2)); [lia|].
  simpl. apply IH; lia.
Qed.

(** X18. Below the purchase start the driver does not wait: when the
    last of the requested blocks is below
    [StakeValidationHeight - TicketMaturity - 2] (no subtraction
    wrapping), [GenerateBlocks] never takes a turn of its wait loop, so
    it never polls the mempool, never times out, and what it returns is
    what the miner alone makes of it. *)
Theorem GenerateBlocks_below_start (c : Client Node) fuel w nd (nb : N)
    nd0 hash startHeight :
  GetBestBlock c nd = (nd0, inr (hash, startHeight)) ->
  inInt64 startHeight ->
  inInt64 (StakeValidationHeight (ActiveNet w)) ->
  inInt64 (StakeValidationHeight (ActiveNet w)
           - Z.of_N (TicketMaturity (ActiveNet w)) - 2) ->
  startHeight + Z.of_N nb
  < StakeValidationHeight (ActiveNet w) - Z.of_N (TicketMaturity (ActiveNet w)) - 2 ->
  GenerateBlocks c fuel w nd nb = GenerateBlocks c 0 w nd nb
  /\ GenerateBlocks c fuel w nd nb <> OutOfFuel.
Proof.
  intros Hbest Hs Hv Hp Hlt.
  assert (Heq : GenerateBlocks c fuel w nd nb = GenerateBlocks c 0 w nd nb).
  { unfold GenerateBlocks. rewrite Hbest.
    apply generateLoop_below_start; try done. lia. }
  split; [done|]. rewrite Heq. unfold GenerateBlocks. rewrite Hbest.
  clear Heq Hbest.
  assert (Hgen : forall todo i n0 hashes mine,
             0 <= i ->
             startHeight + i + Z.of_nat todo
             < StakeValidationHeight (ActiveNet w)
               - Z.of_N (TicketMaturity (ActiveNet w)) - 2 ->
             generateLoop c 0 w mine startHeight (limitNbVotes w)
               (Z.of_N (TicketsPerBlock (ActiveNet w))) i todo n0 hashes
             <> OutOfFuel).
  { induction todo as [|todo IH]; intros i n0 hashes mine Hi Hlt'; simpl; [done|].
    destruct (mine n0 1) as [nd1 [err|h]]; [done|].
    destruct (h !! 0%nat) as [h0|]; [|done].
    assert (Hg : add64 (add64 startHeight i) 1 = startHeight + i + 1).
    { unfold add64, inInt64 in *. rewrite (wrap64_id (startHeight + i)).
      - apply wrap64_id. unfold inInt64. lia.
      - unfold inInt64. lia. }
    assert (Ht : ticketPurchaseStartHeight (ActiveNet w)
                 = StakeValidationHeight (ActiveNet w)
                   - Z.of_N (TicketMaturity (ActiveNet w)) - 2).
    { unfold ticketPurchaseStartHeight, sub64, inInt64 in *.
      rewrite (wrap64_id (StakeValidationHeight (ActiveNet w)
                          - Z.of_N (TicketMaturity (ActiveNet w)))).
      - by apply wrap64_id.
      - unfold inInt64. lia. }
    assert (Hv1 : sub64 (StakeValidationHeight (ActiveNet w)) 1
                  = StakeValidationHeight (ActiveNet w) - 1).
    { unfold sub64. apply wrap64_id. unfold inInt64 in *. lia. }
    rewrite Hg, Ht, Hv1.
    destruct (Z.geb_spec (startHeight + i + 1)
                (StakeValidationHeight (ActiveNet w) - 1)); [lia|].
    destruct (Z.geb_spec (startHeight + i + 1)
                (StakeValidationHeight (ActiveNet w)
                 - Z.of_N (TicketMaturity (ActiveNet w)) - 2)); [lia|].
    simpl. apply IH; lia. }
  apply Hgen; lia.
Qed.

Lemma waitForMempool_same_clock (c1 c2 : Client Node) fuel nd nbVotes nbTickets
    needsVotes needsTickets genHeight :
  (forall n ty, GetRawMempool c1 n ty = GetRawMempool c2 n ty) ->
  (forall n, selectCase c1 n = selectCase c2 n) ->
  waitForMempool c1 fuel nd nbVotes nbTickets needsVotes needsTickets genHeight
  = waitForMempool c2 fuel nd nbVotes nbTickets needsVotes needsTickets genHeight.
Proof.
  intros Hm Hs. revert nd. induction fuel as [|fuel IH]; intros nd; simpl; [done|].
  rewrite Hs. destruct (selectCase c2 nd) as [nd0 fired].
  destruct fired; [| done |].
  - rewrite Hm. destruct (GetRawMempool c2 nd0 GRMTickets) as [nd1 mt].
    rewrite Hm. by destruct (GetRawMempool c2 nd1 GRMVotes) as [nd2 mv].
  - rewrite Hm. destruct (GetRawMempool c2 nd0 GRMTickets) as [nd1 mt].
    rewrite Hm. destruct (GetRawMempool c2 nd1 GRMVotes) as [nd2 mv].
    by rewrite IH.
Qed.

(** X19. With a miner set by [SetMiner], the driver never calls the
    [Generate] of the RPC client: two clients that differ at most in
    their [Generate] (and in the submission of transactions, which the
    driver does not use) give the same result. *)
Theorem GenerateBlocks_uses_miner (c1 c2 : Client Node) fuel w nd (nb : N) f :
  (forall n, GetBestBlock c1 n = GetBestBlock c2 n) ->
  (forall n ty, GetRawMempool c1 n ty = GetRawMempool c2 n ty) ->
  (forall n, selectCase c1 n = selectCase c2 n) ->
  GenerateBlocks c1 fuel (SetMiner w f) nd nb
  = GenerateBlocks c2 fuel (SetMiner w f) nd nb.
Proof.
  intros Hb Hm Hs. unfold GenerateBlocks. rewrite Hb.
  destruct (GetBestBlock c2 nd) as [nd0 [err|[hash startHeight]]]; [done|].
  change (miner (SetMiner w f)) with (Some f).
  generalize (N.to_nat nb) as todo. generalize (@nil (list Z)) as hashes.
  generalize 0 as i. intros i hashes todo. revert i nd0 hashes.
  induction todo as [|todo IH]; intros i nd0 hashes; simpl; [done|].
  destruct (f nd0 1) as [nd1 [err|h]]; [done|].
  destruct (h !! 0%nat) as [h0|]; [|done].
  match goal with |- context [if ?b then _ else _] => destruct b end.
  - apply IH.
  - rewrite (waitForMempool_same_clock c1 c2) by done.
    by destruct (waitForMempool c2 _ _ _ _ _ _ _) as [|msg|[nd2 [err|]]].
Qed.

End Driving.

Section Composing.

Context {Node : Type}.
Variable lib : Lib.
Variable c : Client Node.

Implicit Types (w : VotingWallet Node) (nd : Node) (d : Done Node).

Lemma owned_recorded w (tks : gmap (list Z) ticketInfo) (hs wts : list Hash) price :
  tickets w = insertTickets tks hs price ->
  (forall wt, wt ∈ wts -> wt ∈ hs) ->
  owned w wts = map (fun wt => (wt, {| ticketPrice := price |})) wts.
Proof.
  intros Ht. unfold owned. induction wts as [|wt wts IH]; intros Hall; [done|].
  simpl. rewrite Ht, insertTickets_lookup.
  rewrite decide_True by apply Hall, list_elem_of_here. simpl.
  rewrite <- Ht. f_equal. apply IH. intros x Hx.
  by apply Hall, list_elem_of_further.
Qed.

(** X20. Tickets bought by one block pay back their price: when all the
    tickets of a purchase are accepted and a later draw, handled next,
    names only tickets of that purchase, and all its votes are accepted,
    then the schedule gets, at the maturing height of the draw, one fund
    per winner up to the vote limit, each worth the price recorded at
    the purchase plus the subsidy of the draw. *)
Theorem bought_tickets_pay_back w nd ntfn header (hs : list Hash) nd' draw d2 :
  FromBytes lib (blockHeader ntfn) = inr header ->
  let d1 := handleBlockConnectedNtfn lib c w nd ntfn in
  let price := add64 (SBits header) (div64 (SBits header) 6) in
  let sv := CalcStakeVoteSubsidyV2 lib (blockHeight draw) true in
  map snd (sent d1) = map inr hs ->
  hs <> [] ->
  (forall wt, wt ∈ winningTickets draw -> wt ∈ hs) ->
  handleWinningTicketsNtfn lib c (wallet d1) nd' draw = Returned d2 ->
  logged d2 = [] ->
  exists funds,
    maturingVotes (wallet d2) !! maturingHeightOf w draw = Some funds
    /\ length funds
       = Nat.min (Z.to_nat (limitNbVotes w)) (length (winningTickets draw))
    /\ Forall (fun u => amount u = add64 price sv) funds.
Proof.
  intros Hh d1 price sv Hres Hne Hall Hd2 Hlog.
  assert (Ht : tickets (wallet d1) = insertTickets (tickets w) hs price).
  { destruct (handleBlockConnectedNtfn_cases lib c w nd ntfn)
      as [(_ & Hs & _)|(header' & Hh' & Hlow & Hfew)].
    { fold d1 in Hs. rewrite Hs in Hres. by destruct hs. }
    assert (header' = header) as -> by congruence.
    destruct (handleBlockConnectedNtfn_purchase lib c w nd ntfn _ Hh Hlow Hfew)
      as [(Hs & _)|(txs & promises & _ & Hsend & Hs & Hc)].
    { fold d1 in Hs. rewrite Hs in Hres. by destruct hs. }
    fold d1 price in Hs, Hc.
    pose proof (sendAll_results c _ _ _ _ Hsend) as Hl.
    rewrite Hs, sent_results in Hres by done.
    destruct Hc as [(hs' & err & rest & Hp & _)|(hs' & Hp & Hw & _)].
    { rewrite Hp in Hres. symmetry in Hres.
      by apply results_all_accepted in Hres. }
    rewrite Hp in Hres. apply (inj (fmap inr)) in Hres. subst hs'.
    rewrite Hw.
    match goal with |- context [releaseMatured ?x ?h] =>
      destruct (releaseMatured_fields x h) as (_ & _ & ->) end.
    done. }
  assert (Hl : limitNbVotes (wallet d1) = limitNbVotes w)
    by apply handleBlockConnectedNtfn_limit.
  assert (Hm : maturingHeightOf (wallet d1) draw = maturingHeightOf w draw).
  { pose proof (step_config lib c w nd (EvBlockConnected ntfn) d1 eq_refl) as Hc.
    apply (f_equal (fun t => t.1.1.1.1.1.1.1)) in Hc. simpl in Hc.
    unfold maturingHeightOf. by rewrite Hc. }
  pose proof (owned_recorded _ _ _ _ _ Ht Hall) as Ho.
  apply handleWinningTicketsNtfn_cases in Hd2
    as [(_ & _ & Hn)|(brs & batch & promises & HF & Hsend & _ & Hc)]; [done|].
  simpl in HF, Hc. fold sv in HF, Hc.
  destruct Hc as [(hs2 & e & rest & _ & _ & Hl2)|(hs2 & Hp & Hw & _)].
  { by rewrite Hl2 in Hlog. }
  pose proof (sendAll_results c _ _ _ _ Hsend) as Hlen.
  apply Forall2_length in HF. rewrite Hp, length_map in Hlen.
  exists (zip_with (payout sv) hs2 (voters (wallet d1) (winningTickets draw))).
  rewrite Hw. simpl. rewrite Hm, lookup_insert_eq. split; [done|].
  unfold voters in *. rewrite Hl, Ho in *. split.
  - rewrite length_zip_with, length_take, length_map in *. lia.
  - apply Forall_forall. intros u Hu.
    apply elem_of_lookup_zip_with in Hu as (i & h & v & -> & _ & Hv).
    apply list_elem_of_lookup_2, elem_of_take in Hv as (j & Hj & _).
    rewrite list_lookup_fmap in Hj.
    destruct (winningTickets draw !! j); simpl in Hj; by simplify_eq.
Qed.

End Composing.

Section Shapes.

Context {Node : Type}.
Variable lib : Lib.
Variable c : Client Node.
Variable env : Setup Node.

Implicit Types (w : VotingWallet Node) (nd : Node) (d : Done Node).

Lemma buildVote_outputs w wt t sv brs vote :
  buildVote lib w wt t sv brs = inr vote ->
  (tspendVotes w = [] /\ txVersion vote = wire.TxVersion
   /\ length (txOut vote) = 3%nat)
  \/ (tspendVotes w <> [] /\ txVersion vote = wire.TxVersionTreasury
      /\ exists script,
           OpReturnScript lib (opReturnData (tspendVotes w)) = inr script
           /\ txOut vote !! 3%nat = Some (wire.NewTxOut 0 script)
           /\ length (txOut vote) = 4%nat).
Proof.
  unfold buildVote. intros H.
  destruct (tspendVotes w) as [|tv tvs] eqn:Htv; simpl in H.
  - left. repeat case_match; simplify_eq; done.
  - right. split; [done|].
    destruct (OpReturnScript lib (opReturnData (tv :: tvs))) as [err|script];
      [done|].
    repeat case_match; simplify_eq; simpl; split; try done; by exists script.
Qed.

(** X21. The treasury votes in the votes of a draw: with no tspend vote
    set, every submitted vote has the plain transaction version and
    three outputs; with tspend votes set by [VoteForTSpends], every
    submitted vote has the treasury version and a fourth output of value
    zero carrying the script made from the tspend data. *)
Theorem vote_treasury_output w nd ntfn d tx p :
  handleWinningTicketsNtfn lib c w nd ntfn = Returned d ->
  (tx, p) ∈ sent d ->
  (tspendVotes w = [] /\ txVersion tx = wire.TxVersion
   /\ length (txOut tx) = 3%nat)
  \/ (tspendVotes w <> [] /\ txVersion tx = wire.TxVersionTreasury
      /\ exists script,
           OpReturnScript lib (opReturnData (tspendVotes w)) = inr script
           /\ txOut tx !! 3%nat = Some (wire.NewTxOut 0 script)
           /\ length (txOut tx) = 4%nat).
Proof.
  intros Hd Hin. apply (sent_votes_built lib c) in Hd as [Hs|(brs & HF)].
  { rewrite Hs in Hin. by apply elem_of_nil in Hin. }
  apply list_elem_of_lookup in Hin as [i Hi].
  destruct (Forall2_lookup_r _ _ _ _ _ HF Hi) as ([wt t] & _ & Hb).
  simpl in Hb. by apply buildVote_outputs in Hb.
Qed.

(** X22. A draw touches nothing but the entry of its maturing height:
    the pool, the ticket map, the vote limit and the tspend votes are
    after the handler what they were before, and so is every other
    entry of the schedule. *)
Theorem draw_touches_only_its_height w nd ntfn d :
  handleWinningTicketsNtfn lib c w nd ntfn = Returned d ->
  utxos (wallet d) = utxos w
  /\ tickets (wallet d) = tickets w
  /\ limitNbVotes (wallet d) = limitNbVotes w
  /\ tspendVotes (wallet d) = tspendVotes w
  /\ forall h, h <> maturingHeightOf w ntfn ->
       maturingVotes (wallet d) !! h = maturingVotes w !! h.
Proof.
  intros Hd. apply (handleWinningTicketsNtfn_cases lib c) in Hd
    as [(_ & -> & _)|(brs & batch & promises & _ & _ & _ & Hc)]; [done|].
  destruct Hc as [(hs & e & rest & _ & -> & _)|(hs & _ & -> & _)]; [done|].
  simpl. do 4 (split; [done|]). intros h Hne. by rewrite lookup_insert_ne.
Qed.

Lemma sent_tickets_shape w nd ntfn header :
  FromBytes lib (blockHeader ntfn) = inr header ->
  let d := handleBlockConnectedNtfn lib c w nd ntfn in
  let keep := (length (utxos w) - N.to_nat (TicketsPerBlock (ActiveNet w)))%nat in
  sent d = []
  \/ Forall2
       (fun u p =>
          map Value (txOut p.1)
          = [add64 (SBits header) (div64 (SBits header) 6); 0;
             sub64 (amount u)
               (mul64 (MinimumStakeDiff (ActiveNet w)) commitAmountMultiplier)])
       (drop keep (utxos w)) (sent d).
Proof.
  intros Hh d keep.
  destruct (handleBlockConnectedNtfn_cases lib c w nd ntfn)
    as [(_ & Hs & _)|(header' & Hh' & Hlow & Hfew)]; [by left|].
  assert (header' = header) as -> by congruence.
  destruct (handleBlockConnectedNtfn_purchase lib c w nd ntfn _ Hh Hlow Hfew)
    as [(Hs & _)|(txs & promises & Hb & Hsend & Hs & _)]; [by left|].
  right. fold d keep in Hb, Hsend, Hs.
  pose proof (sendAll_results c _ _ _ _ Hsend) as Hl.
  apply buildTickets_shape in Hb. rewrite Hs. clear Hs Hsend.
  revert promises Hl. induction Hb as [|u tx us txs [_ Hout] _ IH];
    intros [|p promises] Hl; simpl in *; try done; try by constructor.
  constructor; [|apply IH; lia]. simpl. by rewrite Hout.
Qed.

(** X23. The funds of [Start] are spent without change: when a wallet
    just funded by [Start] handles a block-connected notification, every
    ticket it submits has the outputs [ticket price], [0] and [0]: the
    funds are worth exactly the commit amount. *)
Theorem initial_funds_leave_no_change w nd w' nd' nd2 ntfn header tx p :
  Start env w nd = (w', nd', None) ->
  FromBytes lib (blockHeader ntfn) = inr header ->
  (tx, p) ∈ sent (handleBlockConnectedNtfn lib c w' nd2 ntfn) ->
  map Value (txOut tx)
  = [add64 (SBits header) (div64 (SBits header) 6); 0; 0].
Proof.
  intros Hstart Hh Hin. apply Start_success in Hstart as [txid ->].
  match type of Hin with _ ∈ sent (handleBlockConnectedNtfn _ _ ?w0 _ _) =>
    destruct (sent_tickets_shape w0 nd2 ntfn header Hh) as [Hs|HF] end.
  { rewrite Hs in Hin. by apply elem_of_nil in Hin. }
  apply list_elem_of_lookup in Hin as [i Hi].
  destruct (Forall2_lookup_r _ _ _ _ _ HF Hi) as (u & Hu & Hout).
  simpl in Hout. rewrite Hout. clear Hout HF Hi.
  rewrite lookup_drop in Hu. simpl in Hu. rewrite list_lookup_fmap in Hu.
  match type of Hu with context [seq ?a ?b !! ?j] =>
    destruct (seq a b !! j) end; simpl in Hu; [|done].
  injection Hu as <-. simpl. unfold sub64. by rewrite Z.sub_diag.
Qed.

End Shapes.

(** ** Further concrete runs *)

Section MoreRuns.

Import Fixture Scenario.

Lemma requiredTicketCount_wraps_witness :
  Z.of_N ((4 + 2 + 2) * 5) < 65536
  /\ requiredTicketCount (mkParams 16 2 4 5 20000 []) = 40
  /\ requiredTicketCount (mkParams 1000 256 256 200 20000 []) = 102800 mod 65536.
Proof.
  assert (H1 : Z.of_N ((4 + 2 + 2) * 5) < 65536) by reflexivity.
  split; [exact H1|]. split.
  - apply (proj2 (proj2 (requiredTicketCount_wraps (mkParams 16 2 4 5 20000 []))) H1).
  - apply (proj1 (requiredTicketCount_wraps (mkParams 1000 256 256 200 20000 []))).
Defined.

Lemma votes_need_tickets_witness :
  inInt64 (StakeValidationHeight net)
  /\ inInt64 (StakeValidationHeight net - Z.of_N (TicketMaturity net) - 2)
  /\ ticketPurchaseStartHeight net = 12
  /\ ticketPurchaseStartHeight net < sub64 (StakeValidationHeight net) 1.
Proof.
  assert (H1 : inInt64 (StakeValidationHeight net)) by (unfold inInt64; simpl; lia).
  assert (H2 : inInt64 (StakeValidationHeight net - Z.of_N (TicketMaturity net) - 2))
    by (unfold inInt64; simpl; lia).
  split; [exact H1|]. split; [exact H2|].
  destruct (votes_need_tickets net 15 H1 H2) as (Hs & Hlt & _).
  split; [exact Hs|exact Hlt].
Defined.

Lemma opReturnData_length_witness :
  Forall (fun v => length (tvHash v) = 32%nat) [tspend 1 1; tspend 2 0]
  /\ take 2 (opReturnData [tspend 1 1; tspend 2 0]) = [84; 86]
  /\ length (opReturnData [tspend 1 1; tspend 2 0]) = 68%nat.
Proof.
  assert (H1 : Forall (fun v => length (tvHash v) = 32%nat) [tspend 1 1; tspend 2 0])
    by (repeat constructor).
  split; [exact H1|]. apply (opReturnData_length _ H1).
Defined.

Lemma purchase_ticket_shape_witness :
  FromBytes lib (blockHeader (connected 12 60)) = inr {| Height := 12; SBits := 60 |}
  /\ length (sent (handleBlockConnectedNtfn lib client fresh
                     (answering [inr [11]; inr [12]]) (connected 12 60)))
     = length (drop 2 (utxos fresh)).
Proof.
  assert (H1 : FromBytes lib (blockHeader (connected 12 60))
               = inr {| Height := 12; SBits := 60 |}) by reflexivity.
  split; [exact H1|].
  destruct (purchase_ticket_shape lib client fresh
              (answering [inr [11]; inr [12]]) (connected 12 60) _ H1) as [H|H].
  - vm_compute in H. discriminate H.
  - symmetry. exact (Forall2_length _ _ _ H).
Defined.

Lemma votes_are_first_owned_winners_witness :
  exists d,
    handleWinningTicketsNtfn lib client holding
      (answering [inr [11]; inr [12]]) (drawn 20 [[3]; [2]; [1]]) = Returned d
    /\ length (sent d) = 2%nat.
Proof.
  eexists. split; [vm_compute; reflexivity|].
  destruct (votes_are_first_owned_winners lib client holding
              (answering [inr [11]; inr [12]]) (drawn 20 [[3]; [2]; [1]]) _
              ltac:(vm_compute; reflexivity)) as [H|[H _]].
  - vm_compute in H. discriminate H.
  - exact H.
Defined.

Lemma sign_failure_consumes_funds_witness :
  FromBytes unsigned (blockHeader (connected 12 60))
  = inr {| Height := 12; SBits := 60 |}
  /\ ticketPurchaseStartHeight (ActiveNet fresh) <= 12
  /\ Z.of_N (TicketsPerBlock (ActiveNet fresh)) <= Z.of_nat (length (utxos fresh))
  /\ (0 < TicketsPerBlock (ActiveNet fresh))%N
  /\ (forall tx i script key, SignatureScript_ unsigned tx i script key = inl "no key")
  /\ handleBlockConnectedNtfn unsigned client fresh (answering []) (connected 12 60)
     = {| wallet := set_utxos fresh (take 2 (utxos fresh));
          node := answering [];
          logged := ["failed to sign ticket tx: no key"];
          sent := [] |}.
Proof.
  assert (H1 : FromBytes unsigned (blockHeader (connected 12 60))
               = inr {| Height := 12; SBits := 60 |}) by reflexivity.
  assert (H2 : ticketPurchaseStartHeight (ActiveNet fresh)
               <= Z.of_N (Height {| Height := 12; SBits := 60 |}))
    by (vm_compute; discriminate).
  assert (H3 : Z.of_N (TicketsPerBlock (ActiveNet fresh))
               <= Z.of_nat (length (utxos fresh))) by (vm_compute; discriminate).
  assert (H4 : (0 < TicketsPerBlock (ActiveNet fresh))%N) by reflexivity.
  assert (H5 : forall tx i script key,
             SignatureScript_ unsigned tx i script key = inl "no key")
    by reflexivity.
  split; [exact H1|]. split; [exact H2|]. split; [exact H3|].
  split; [exact H4|]. split; [exact H5|].
  apply (sign_failure_consumes_funds unsigned client fresh (answering [])
           (connected 12 60) _ "no key" H1 H2 H3 H4 H5).
Defined.

Lemma draw_without_owned_winner_witness :
  GenerateSSGenBlockRef lib (blockHash (drawn 16 [[3]]))
    (toUint32 (blockHeight (drawn 16 [[3]]))) = inr [2]
  /\ 0 <= limitNbVotes awaiting
  /\ (forall wt, wt ∈ winningTickets (drawn 16 [[3]]) -> tickets awaiting !! wt = None)
  /\ maturingVotes awaiting !! 20 = Some [fund 0 11]
  /\ handleWinningTicketsNtfn lib client awaiting (answering []) (drawn 16 [[3]])
     = Returned {| wallet := set_maturingVotes awaiting
                               (<[ 20 := [] ]> (maturingVotes awaiting));
                   node := answering []; logged := []; sent := [] |}.
Proof.
  assert (H1 : GenerateSSGenBlockRef lib (blockHash (drawn 16 [[3]]))
                 (toUint32 (blockHeight (drawn 16 [[3]]))) = inr [2]) by reflexivity.
  assert (H2 : 0 <= limitNbVotes awaiting) by (simpl; lia).
  assert (H3 : forall wt, wt ∈ winningTickets (drawn 16 [[3]]) ->
                          tickets awaiting !! wt = None) by reflexivity.
  split; [exact H1|]. split; [exact H2|]. split; [exact H3|].
  split; [reflexivity|].
  apply (draw_without_owned_winner lib client awaiting (answering [])
           (drawn 16 [[3]]) [2] H1 H2 H3).
Defined.

Lemma vote_build_failure_submits_nothing_witness :
  GenerateSSGenBlockRef strict (blockHash (drawn 20 [[1]; [2]]))
    (toUint32 (blockHeight (drawn 20 [[1]; [2]]))) = inr [2]
  /\ ([2], mkTicketInfo 10) ∈ voters holding (winningTickets (drawn 20 [[1]; [2]]))
  /\ buildVote strict holding [2] (mkTicketInfo 10) 1 [2]
     = inl "transaction is not a valid vote: bad vote"
  /\ exists err,
       handleWinningTicketsNtfn strict client holding
         (answering [inr [11]; inr [12]]) (drawn 20 [[1]; [2]])
       = Returned {| wallet := holding; node := answering [inr [11]; inr [12]];
                     logged := [err]; sent := [] |}.
Proof.
  assert (H1 : GenerateSSGenBlockRef strict (blockHash (drawn 20 [[1]; [2]]))
                 (toUint32 (blockHeight (drawn 20 [[1]; [2]]))) = inr [2])
    by reflexivity.
  assert (H2 : ([2], mkTicketInfo 10)
               ∈ voters holding (winningTickets (drawn 20 [[1]; [2]]))).
  { apply list_elem_of_further, list_elem_of_here. }
  assert (H3 : buildVote strict holding [2] (mkTicketInfo 10) 1 [2]
               = inl "transaction is not a valid vote: bad vote") by reflexivity.
  split; [exact H1|]. split; [exact H2|]. split; [exact H3|].
  apply (vote_build_failure_submits_nothing strict client holding
           (answering [inr [11]; inr [12]]) (drawn 20 [[1]; [2]]) [2]
           ([2], mkTicketInfo 10) _ H1 H2 H3).
Defined.

Lemma limit_never_increases_witness :
  limitNbVotes holding < 3
  /\ exists err,
       LimitNbVotes (walletAfter lib client holding (answering [inr [11]])
                       [EvLimitNbVotes 1; EvWinningTickets (drawn 20 [[1]])]) 3
       = (walletAfter lib client holding (answering [inr [11]])
            [EvLimitNbVotes 1; EvWinningTickets (drawn 20 [[1]])], Some err).
Proof.
  assert (H1 : limitNbVotes holding < 3) by reflexivity.
  split; [exact H1|].
  apply (proj2 (proj2 (limit_never_increases lib client holding
                         (answering [inr [11]])
                         [EvLimitNbVotes 1; EvWinningTickets (drawn 20 [[1]])]
                         [] 3)) H1).
Defined.

Lemma event_loop_never_panics_witness :
  1 <= limitNbVotes holding
  /\ Forall (fun ev => ev <> EvLimitNbVotes 0)
       [EvLimitNbVotes 1; EvWinningTickets (drawn 20 [[1]; [2]])]
  /\ map fst (run lib client holding (answering [inr [11]])
                [EvLimitNbVotes 1; EvWinningTickets (drawn 20 [[1]; [2]])])
     = [EvLimitNbVotes 1; EvWinningTickets (drawn 20 [[1]; [2]])].
Proof.
  assert (H1 : 1 <= limitNbVotes holding) by (simpl; lia).
  assert (H2 : Forall (fun ev => ev <> EvLimitNbVotes 0)
                 [EvLimitNbVotes 1; EvWinningTickets (drawn 20 [[1]; [2]])]).
  { repeat constructor; discriminate. }
  split; [exact H1|]. split; [exact H2|].
  apply (event_loop_never_panics lib client holding (answering [inr [11]]) _ H1 H2).
Defined.

Lemma funds_accounted_witness :
  holds (walletAfter lib client holding (answering [inr [11]])
           [EvWinningTickets (drawn 20 [[1]])])
    (payout 1 [11] ([1], mkTicketInfo 10))
  /\ (holds holding (payout 1 [11] ([1], mkTicketInfo 10))
      \/ exists tx,
           (tx, inr [11]) ∈ voteLog lib client holding (answering [inr [11]])
                              [EvWinningTickets (drawn 20 [[1]])]
           /\ opIndex (outpoint (payout 1 [11] ([1], mkTicketInfo 10))) = 2
           /\ opTree (outpoint (payout 1 [11] ([1], mkTicketInfo 10)))
              = wire.TxTreeStake
           /\ Value <$> txOut tx !! 2%nat = Some 11).
Proof.
  assert (H1 : holds (walletAfter lib client holding (answering [inr [11]])
                        [EvWinningTickets (drawn 20 [[1]])])
                 (payout 1 [11] ([1], mkTicketInfo 10))).
  { right. exists 24, [payout 1 [11] ([1], mkTicketInfo 10)].
    split; [vm_compute; reflexivity|apply list_elem_of_here]. }
  split; [exact H1|].
  apply (funds_accounted lib client holding (answering [inr [11]])
           [EvWinningTickets (drawn 20 [[1]])] _ H1).
Defined.

Lemma NewVotingWallet_connects_witness :
  length (NewVotingWallet offline net early).1.2 = 20%nat
  /\ (NewVotingWallet offline net early).2 = inl "unable to connect to miner node"
  /\ foldr Z.add 0 (NewVotingWallet offline net early).1.2 = 9500.
Proof.
  assert (H1 : length (NewVotingWallet offline net early).1.2 = 20%nat)
    by (vm_compute; reflexivity).
  split; [exact H1|].
  apply (proj2 (proj2 (NewVotingWallet_connects offline net early)) H1).
Defined.

Lemma initial_funds_suffice_witness :
  Start online limited early = ((Start online limited early).1.1, early, None)
  /\ Z.of_N ((CoinbaseMaturity (ActiveNet limited) + TicketMaturity (ActiveNet limited) + 2)
             * TicketsPerBlock (ActiveNet limited)) < 65536
  /\ (blocksIn [EvBlockConnected (connected 12 60)]
      < N.to_nat (CoinbaseMaturity (ActiveNet limited)
                  + TicketMaturity (ActiveNet limited) + 2))%nat
  /\ Z.of_N (TicketsPerBlock (ActiveNet limited))
     <= Z.of_nat (length (utxos (walletAfter lib client (Start online limited early).1.1
                                   (answering [inr [11]; inr [12]])
                                   [EvBlockConnected (connected 12 60)]))).
Proof.
  assert (H0 : Start online limited early
               = ((Start online limited early).1.1, early, None)) by reflexivity.
  assert (H1 : Z.of_N ((CoinbaseMaturity (ActiveNet limited)
                        + TicketMaturity (ActiveNet limited) + 2)
                       * TicketsPerBlock (ActiveNet limited)) < 65536) by reflexivity.
  assert (H2 : (blocksIn [EvBlockConnected (connected 12 60)]
                < N.to_nat (CoinbaseMaturity (ActiveNet limited)
                            + TicketMaturity (ActiveNet limited) + 2))%nat)
    by (simpl; lia).
  split; [exact H0|]. split; [exact H1|]. split; [exact H2|].
  exact (initial_funds_suffice lib client online limited early _ early
           (answering [inr [11]; inr [12]]) [EvBlockConnected (connected 12 60)]
           H0 H1 H2).
Defined.

Lemma made_wallet_votes_within_limit_witness :
  exists w,
    NewVotingWallet online net early = (early, [], inr w)
    /\ utxos w = [] /\ tickets w = ∅ /\ maturingVotes w = ∅
    /\ limitNbVotes w = 2.
Proof.
  eexists. split; [vm_compute; reflexivity|].
  destruct (made_wallet_votes_within_limit lib client online net early early [] _
              ltac:(vm_compute; reflexivity))
    as (Hu & Ht & Hm & _ & _ & Hl & _).
  split; [exact Hu|]. split; [exact Ht|]. split; [exact Hm|exact Hl].
Defined.

Lemma GenerateBlocks_below_start_witness :
  GetBestBlock client mining = (mining, inr ([0], 3))
  /\ inInt64 3
  /\ inInt64 (StakeValidationHeight (ActiveNet limited))
  /\ inInt64 (StakeValidationHeight (ActiveNet limited)
              - Z.of_N (TicketMaturity (ActiveNet limited)) - 2)
  /\ 3 + Z.of_N 2
     < StakeValidationHeight (ActiveNet limited)
       - Z.of_N (TicketMaturity (ActiveNet limited)) - 2
  /\ GenerateBlocks client 100 limited mining 2 = GenerateBlocks client 0 limited mining 2
  /\ GenerateBlocks client 100 limited mining 2 <> OutOfFuel.
Proof.
  assert (H1 : GetBestBlock client mining = (mining, inr ([0], 3))) by reflexivity.
  assert (H2 : inInt64 3) by (unfold inInt64; lia).
  assert (H3 : inInt64 (StakeValidationHeight (ActiveNet limited)))
    by (unfold inInt64; simpl; lia).
  assert (H4 : inInt64 (StakeValidationHeight (ActiveNet limited)
                        - Z.of_N (TicketMaturity (ActiveNet limited)) - 2))
    by (unfold inInt64; simpl; lia).
  assert (H5 : 3 + Z.of_N 2
               < StakeValidationHeight (ActiveNet limited)
                 - Z.of_N (TicketMaturity (ActiveNet limited)) - 2)
    by (simpl; lia).
  split; [exact H1|]. split; [exact H2|]. split; [exact H3|].
  split; [exact H4|]. split; [exact H5|].
  apply (GenerateBlocks_below_start client 100 limited mining 2 mining [0] 3
           H1 H2 H3 H4 H5).
Defined.

Lemma GenerateBlocks_uses_miner_witness :
  (forall n, GetBestBlock mute n = GetBestBlock client n)
  /\ (forall n ty, GetRawMempool mute n ty = GetRawMempool client n ty)
  /\ (forall n, selectCase mute n = selectCase client n)
  /\ GenerateBlocks mute 10 (SetMiner limited quickMiner) early 2
     = GenerateBlocks client 10 (SetMiner limited quickMiner) early 2.
Proof.
  assert (H1 : forall n, GetBestBlock mute n = GetBestBlock client n) by reflexivity.
  assert (H2 : forall n ty, GetRawMempool mute n ty = GetRawMempool client n ty)
    by reflexivity.
  assert (H3 : forall n, selectCase mute n = selectCase client n) by reflexivity.
  split; [exact H1|]. split; [exact H2|]. split; [exact H3|].
  apply (GenerateBlocks_uses_miner mute client 10 limited early 2 quickMiner H1 H2 H3).
Defined.

Lemma bought_tickets_pay_back_witness :
  exists d2,
    FromBytes lib (blockHeader (connected 12 60)) = inr {| Height := 12; SBits := 60 |}
    /\ map snd (sent (handleBlockConnectedNtfn lib client fresh
                        (answering [inr [11]; inr [12]]) (connected 12 60)))
       = map inr [[11]; [12]]
    /\ handleWinningTicketsNtfn lib client
         (wallet (handleBlockConnectedNtfn lib client fresh
                    (answering [inr [11]; inr [12]]) (connected 12 60)))
         (answering [inr [21]; inr [22]]) (drawn 16 [[12]; [11]]) = Returned d2
    /\ logged d2 = []
    /\ exists funds,
         maturingVotes (wallet d2) !! maturingHeightOf fresh (drawn 16 [[12]; [11]])
         = Some funds
         /\ length funds = 2%nat
         /\ Forall (fun u => amount u = 71) funds.
Proof.
  eexists.
  assert (H1 : FromBytes lib (blockHeader (connected 12 60))
               = inr {| Height := 12; SBits := 60 |}) by reflexivity.
  assert (H2 : map snd (sent (handleBlockConnectedNtfn lib client fresh
                                (answering [inr [11]; inr [12]]) (connected 12 60)))
               = map inr [[11]; [12]]) by (vm_compute; reflexivity).
  assert (H3 : [[11]; [12]] <> [] :> list (list Z)) by discriminate.
  assert (H4 : forall wt, wt ∈ winningTickets (drawn 16 [[12]; [11]]) ->
                          wt ∈ [[11]; [12]]).
  { intros wt Hwt. simpl in Hwt.
    apply elem_of_cons in Hwt as [->|Hwt];
      [apply list_elem_of_further, list_elem_of_here|].
    apply elem_of_cons in Hwt as [->|Hwt]; [apply list_elem_of_here|].
    by apply elem_of_nil in Hwt. }
  split; [exact H1|]. split; [exact H2|].
  split; [vm_compute; reflexivity|]. split; [reflexivity|].
  apply (bought_tickets_pay_back lib client fresh (answering [inr [11]; inr [12]])
           (connected 12 60) _ [[11]; [12]] (answering [inr [21]; inr [22]])
           (drawn 16 [[12]; [11]]) _ H1 H2 H3 H4
           ltac:(vm_compute; reflexivity) eq_refl).
Defined.

Lemma GenerateBlocks_count_witness :
  GenerateBlocks client 10 limited polled 1
  = Finished (limited, mkScripted [] [] [] [] (inr ([0], 15)), inr [[42]])
  /\ length [[42]] = N.to_nat 1.
Proof.
  assert (H1 : GenerateBlocks client 10 limited polled 1
               = Finished (limited, mkScripted [] [] [] [] (inr ([0], 15)),
                           inr [[42]])) by (vm_compute; reflexivity).
  split; [exact H1|].
  apply (GenerateBlocks_count client 10 limited polled 1 _ _ _ H1).
Defined.

Lemma vote_treasury_output_witness :
  exists d tx p,
    handleWinningTicketsNtfn lib client (VoteForTSpends holding [tspend 1 1])
      (answering [inr [11]]) (drawn 20 [[1]]) = Returned d
    /\ (tx, p) ∈ sent d
    /\ txVersion tx = wire.TxVersionTreasury
    /\ length (txOut tx) = 4%nat.
Proof.
  do 3 eexists. split; [vm_compute; reflexivity|].
  split; [apply list_elem_of_here|].
  destruct (vote_treasury_output lib client (VoteForTSpends holding [tspend 1 1])
              (answering [inr [11]]) (drawn 20 [[1]]) _ _ _
              ltac:(vm_compute; reflexivity) ltac:(apply list_elem_of_here))
    as [(He & _)|(_ & Hv & script & _ & _ & Hl)].
  - discriminate He.
  - split; [exact Hv|exact Hl].
Defined.

Lemma draw_touches_only_its_height_witness :
  exists d,
    handleWinningTicketsNtfn lib client holding (answering [inr [11]])
      (drawn 20 [[1]]) = Returned d
    /\ utxos (wallet d) = utxos holding
    /\ tickets (wallet d) = tickets holding
    /\ limitNbVotes (wallet d) = limitNbVotes holding.
Proof.
  eexists. split; [vm_compute; reflexivity|].
  destruct (draw_touches_only_its_height lib client holding (answering [inr [11]])
              (drawn 20 [[1]]) _ ltac:(vm_compute; reflexivity))
    as (Hu & Ht & Hl & _).
  split; [exact Hu|]. split; [exact Ht|exact Hl].
Defined.

Lemma initial_funds_leave_no_change_witness :
  exists tx p,
    Start online limited early = ((Start online limited early).1.1, early, None)
    /\ FromBytes lib (blockHeader (connected 12 60))
       = inr {| Height := 12; SBits := 60 |}
    /\ (tx, p) ∈ sent (handleBlockConnectedNtfn lib client
                          (Start online limited early).1.1
                          (answering [inr [11]; inr [12]]) (connected 12 60))
    /\ map Value (txOut tx) = [70; 0; 0].
Proof.
  assert (H0 : Start online limited early
               = ((Start online limited early).1.1, early, None)) by reflexivity.
  assert (H1 : FromBytes lib (blockHeader (connected 12 60))
               = inr {| Height := 12; SBits := 60 |}) by reflexivity.
  assert (H2 : exists tx p,
             (tx, p) ∈ sent (handleBlockConnectedNtfn lib client
                               (Start online limited early).1.1
                               (answering [inr [11]; inr [12]]) (connected 12 60))).
  { do 2 eexists. vm_compute. apply list_elem_of_here. }
  destruct H2 as (tx & p & H2). exists tx, p.
  split; [exact H0|]. split; [exact H1|]. split; [exact H2|].
  exact (initial_funds_leave_no_change lib client online limited early _ early
           (answering [inr [11]; inr [12]]) (connected 12 60) _ tx p H0 H1 H2).
Defined.

End MoreRuns.
